(** * libads: ADS_STRUCT helpers (source3/libads/ads_struct.c)

    A shallow embedding of the six functions of ads_struct.c

      ads_build_path, ads_build_dn, ads_build_domain,
      ads_init, ads_set_sasl_wrap_flags, ads_destroy

    and the properties the specification states about them.

    Conventions.
    - A C string is the list of its bytes before the terminating NUL.
    - A nullable pointer is an [option]; [None] is NULL.
    - C integers are values of [Z]; every conversion between [int] and
      [size_t] is written out ([to_int], [to_size_t], LP64: 32-bit int,
      64-bit size_t).
    - Whatever the file takes from headers or other libraries of the tree
      (allocation macros, flag constants, loadparm getters, [strlower_m])
      is a variable of the section [Ads].
    - Theorems that say what ads_build_path returns are about runs in
      which no allocation fails ([strdup_ok], [malloc_ok], [asprintf_ok])
      and the capacity of line 47 fits an [int]
      ([path_capacity _ _ _ <= INT_MAX]); [ads_build_path_complete] holds
      whatever the sizes. *)

From stdpp Require Import gmap.
From Stdlib Require Import Ascii String.
From Stdlib Require Import ZArith Lia List Bool.
Import ListNotations.
Open Scope Z_scope.

(** ** C strings *)

Abbreviation cstring := (list ascii).

(** String literals of the C source, as byte lists. *)
Definition cs (s : string) : cstring := list_ascii_of_string s.

Definition NUL : ascii := Ascii.zero.

Definition strlen (s : cstring) : Z := Z.of_nat (length s).

(** ** Machine integers (LP64) *)

Definition INT_MAX : Z := 2147483647.

(** Conversion to [int]: reduction modulo 2^32 into [-2^31, 2^31). *)
Definition to_int (z : Z) : Z := (z + 2147483648) mod 4294967296 - 2147483648.

(** Conversion to [size_t]: reduction modulo 2^64. *)
Definition to_size_t (z : Z) : Z := z mod 18446744073709551616.

(** Conversion to [unsigned]: reduction modulo 2^32. *)
Definition to_unsigned (z : Z) : Z := z mod 4294967296.

(** ** libc string functions used by ads_build_path *)

(** [strchr(s, c) != NULL].  The terminator is part of the string, so
    looking for NUL always succeeds. *)
Definition strchr (s : cstring) (c : ascii) : bool :=
  Ascii.eqb c NUL || existsb (Ascii.eqb c) s.

(** Membership in a delimiter set, as [strspn] and [strcspn] test it. *)
Definition is_delim (delim : cstring) (c : ascii) : bool :=
  existsb (Ascii.eqb c) delim.

(** [s + strspn(s, delim)]: the string after its leading delimiters. *)
Fixpoint skip_delims (delim s : cstring) : cstring :=
  match s with
  | [] => []
  | c :: s' => if is_delim delim c then skip_delims delim s' else s
  end.

(** The first [strcspn(s, delim)] bytes of [s] and the string from there. *)
Fixpoint break_token (delim s : cstring) : cstring * cstring :=
  match s with
  | [] => ([], [])
  | c :: s' =>
      if is_delim delim c then ([], s)
      else let (tok, rest) := break_token delim s' in (c :: tok, rest)
  end.

(** [strtok_r(s, delim, &saveptr)] on the string [s] (on the first call the
    argument, afterwards the saved pointer).  [None] is a NULL result;
    otherwise the token and the new saved pointer: the byte after the
    delimiter that was overwritten with NUL, or the end of the string. *)
Definition strtok_r (s delim : cstring) : option (cstring * cstring) :=
  match skip_delims delim s with
  | [] => None
  | s1 =>
      let (tok, rest) := break_token delim s1 in
      Some (tok, match rest with [] => [] | _ :: saveptr => saveptr end)
  end.

(** [strlcpy(dst, src, size)]: the new contents of [dst] and the value
    returned, the length of [src]. *)
Definition strlcpy (src : cstring) (size : Z) : cstring * Z :=
  (firstn (Z.to_nat (size - 1)) src, strlen src).

(** [strlcat(dst, src, size)]: the new contents of [dst] and the value
    returned, the length it tried to create. *)
Definition strlcat (dst src : cstring) (size : Z) : cstring * Z :=
  (dst ++ firstn (Z.to_nat (size - strlen dst - 1)) src,
   Z.min (strlen dst) size + strlen src).

(** What printf prints for a [%s] argument; glibc prints "(null)" for a
    null pointer. *)
Definition fmt_s (s : option cstring) : cstring :=
  match s with
  | Some s => s
  | None => cs "(null)"
  end.

(** ** Lower-casing and substitution (lib/util) *)

Definition is_upper (c : ascii) : bool :=
  (65 <=? nat_of_ascii c)%nat && (nat_of_ascii c <=? 90)%nat.

(** [tolower] on one byte of the C locale. *)
Definition tolower (c : ascii) : ascii :=
  if is_upper c then ascii_of_nat (nat_of_ascii c + 32) else c.

(** Bytes below 0x80. *)
Definition is_ascii7 (c : ascii) : bool := (nat_of_ascii c <? 128)%nat.

(** Whether [pattern] occurs at the start of [s]; the rest of [s] after it. *)
Fixpoint strip_prefix (pattern s : cstring) : option cstring :=
  match pattern, s with
  | [], _ => Some s
  | _ :: _, [] => None
  | a :: pattern', b :: s' =>
      if Ascii.eqb a b then strip_prefix pattern' s' else None
  end.

(** [strstr(s, pattern)]: the bytes before the first occurrence and the
    bytes after it; [None] when there is none. *)
Fixpoint strstr (s pattern : cstring) : option (cstring * cstring) :=
  match strip_prefix pattern s with
  | Some after => Some ([], after)
  | None =>
      match s with
      | [] => None
      | c :: s' =>
          match strstr s' pattern with
          | Some (before, after) => Some (c :: before, after)
          | None => None
          end
      end
  end.

(** The rounds of [all_string_sub]: find the next occurrence, replace it,
    go on behind the replacement. *)
Fixpoint all_string_sub_loop (fuel : nat) (s pattern insert : cstring)
  : cstring :=
  match fuel with
  | O => s
  | S fuel' =>
      match strstr s pattern with
      | None => s
      | Some (before, after) =>
          before ++ insert ++ all_string_sub_loop fuel' after pattern insert
      end
  end.

(** Modelled from the spec: [all_string_sub] (lib/util) is not among the
    sources.  The spec describes the two calls of ads_build_domain as
    textually removing every occurrence of "dc=" and replacing every comma
    with a period; the in-place substitution is one scan from left to right
    that replaces each occurrence of [pattern] found by [insert] and goes on
    after the inserted text.  An empty pattern changes nothing.  Each round
    consumes at least one byte, so [length s] rounds are enough
    ([all_string_sub_loop_fuel]). *)
Definition all_string_sub (s pattern insert : cstring) : cstring :=
  match pattern with
  | [] => s
  | _ => all_string_sub_loop (length s) s pattern insert
  end.

(** ** What the specification says, in its own words *)

(** The fields of [s] between delimiters, empty ones included. *)
Fixpoint split_fields (delim s : cstring) : list cstring :=
  match s with
  | [] => [[]]
  | c :: s' =>
      if is_delim delim c then [] :: split_fields delim s'
      else match split_fields delim s' with
           | f :: fs => (c :: f) :: fs
           | [] => [[c]]
           end
  end.

Definition nonempty (s : cstring) : bool :=
  match s with [] => false | _ => true end.

(** The ordered sequence of non-empty tokens of [s]. *)
Definition tokens (delim s : cstring) : list cstring :=
  filter nonempty (split_fields delim s).

(** [l] joined with [d] between consecutive elements. *)
Fixpoint join (d : cstring) (l : list cstring) : cstring :=
  match l with
  | [] => []
  | [x] => x
  | x :: l' => x ++ d ++ join d l'
  end.

(** Every token prefixed with [field], comma-joined, in the order given. *)
Definition prefixed_path (field : cstring) (toks : list cstring) : cstring :=
  join (cs ",") (map (app field) toks).

(** A realm of the shape [[a-z0-9]+(\.[a-z0-9]+)*]: every field between
    dots is a non-empty run of lower-case letters and digits. *)
Definition is_lower_alnum (c : ascii) : bool :=
  ((97 <=? nat_of_ascii c)%nat && (nat_of_ascii c <=? 122)%nat)
  || ((48 <=? nat_of_ascii c)%nat && (nat_of_ascii c <=? 57)%nat).

Definition realm_label (l : cstring) : bool :=
  nonempty l && forallb is_lower_alnum l.

Definition realm_shape (realm : cstring) : bool :=
  forallb realm_label (split_fields (cs ".") realm).

(** The same shape, as the regular expression reads: a label, or a label,
    a dot and a realm. *)
Inductive realm_regex : cstring -> Prop :=
| realm_one l : realm_label l = true -> realm_regex l
| realm_dot l realm :
    realm_label l = true -> realm_regex realm ->
    realm_regex (l ++ cs "." ++ realm).

(** Every occurrence of the literal "dc=" removed. *)
Definition is_dc_eq (c1 c2 c3 : ascii) : bool :=
  Ascii.eqb c1 "d" && Ascii.eqb c2 "c" && Ascii.eqb c3 "=".

Fixpoint remove_dc (s : cstring) : cstring :=
  match s with
  | [] => []
  | c1 :: s1 =>
      match s1 with
      | c2 :: c3 :: s3 =>
          if is_dc_eq c1 c2 c3 then remove_dc s3 else c1 :: remove_dc s1
      | _ => c1 :: remove_dc s1
      end
  end.

(** Every comma replaced by a period. *)
Definition commas_to_periods (s : cstring) : cstring :=
  map (fun c => if Ascii.eqb c "," then "."%char else c) s.

(** A byte other than [x]. *)
Definition other_than (x c : ascii) : bool := negb (Ascii.eqb c x).

(** The bytes of [s] lower-cased. *)
Definition lowercase (s : cstring) : cstring := map tolower s.

(** The path the specification describes for the tokens [toks]: in input
    order when [reverse] is 0, in the opposite order otherwise. *)
Definition expected_path (field : cstring) (reverse : Z)
    (toks : list cstring) : cstring :=
  prefixed_path field (if reverse =? 0 then toks else rev toks).

(** One round of the loop of lines 69-83 on the path so far, when no
    allocation fails. *)
Definition path_step (field : cstring) (reverse : Z) (ret p : cstring)
  : cstring :=
  if reverse =? 0 then ret ++ cs "," ++ field ++ p
  else field ++ p ++ cs "," ++ ret.

(** The number of bytes of [r] that line 42 counts, and the capacity of
    line 47 as a mathematical integer. *)
Definition count_strchr (sep r : cstring) : nat :=
  length (filter (strchr sep) r).

Definition path_capacity (sep field r : cstring) : Z :=
  (Z.of_nat (count_strchr sep r) + 1) * (strlen field + 1) + strlen r + 1.

(** The number of delimiter bytes of [s]. *)
Definition count_delims (delim s : cstring) : nat :=
  length (filter (is_delim delim) s).

(** The sum of the lengths of the strings of [l]. *)
Definition total_length (l : list cstring) : nat :=
  length (concat l).

(** A letter of either case or a digit; a byte of a realm written with
    such labels and dots. *)
Definition is_alnum (c : ascii) : bool := is_upper c || is_lower_alnum c.

Definition is_realm_char (c : ascii) : bool := is_alnum c || Ascii.eqb c ".".

(** A token: not empty and free of the byte [c]. *)
Definition token_without (c : ascii) (t : cstring) : bool :=
  nonempty t && forallb (other_than c) t.

(** ** Collaborators used to exercise the model *)

(** An allocator that never runs out of memory. *)
Definition strdup_ideal (s : option cstring) : option cstring := s.
Definition malloc_ideal (size : Z) : bool := 0 <? size.
Definition asprintf_ideal (s : cstring) : option cstring := Some s.

(** A lower-casing routine that handles the C locale and reports a
    conversion error on any byte from 0x80 up. *)
Definition strlower_c_locale (s : cstring) : option cstring :=
  if forallb is_ascii7 s then Some (lowercase s) else None.

(** A duplication that copies every string and, handed NULL, does not
    answer NULL: C leaves [strdup(NULL)] undefined. *)
Definition strdup_no_null_check (junk : cstring) (s : option cstring)
  : option cstring :=
  match s with
  | Some s => Some s
  | None => Some junk
  end.

(** Inputs on which the arithmetic of line 47 leaves the range of [int]:
    32767 dots and a prefix of 131071 bytes. *)
Definition many_dots : cstring := repeat "."%char (Z.to_nat 32767).

Definition long_prefix : cstring := repeat "x"%char (Z.to_nat 131071).

(** ** ADS_STRUCT and the memory holding it *)

(** The members of ADS_STRUCT (ads.h) that ads_struct.c names.  Strings are
    owned [char *] members. *)
Record ads_server := {
  server_realm : option cstring;
  server_workgroup : option cstring;
  server_ldap_server : option cstring
}.

Record ads_auth := {
  auth_realm : option cstring;
  auth_password : option cstring;
  auth_user_name : option cstring;
  auth_kdc_server : option cstring;
  auth_flags : Z;
  auth_ccache_name : option cstring
}.

Record ads_config := {
  ldap_page_size : Z;
  config_realm : option cstring;
  bind_path : option cstring;
  ldap_server_name : option cstring;
  server_site_name : option cstring;
  client_site_name : option cstring;
  schema_path : option cstring;
  config_path : option cstring
}.

Record ADS_STRUCT := {
  is_mine : bool;
  server : ads_server;
  auth : ads_auth;
  config : ads_config
}.

Inductive ads_sasl_state_e := ADS_SASL_PLAIN | ADS_SASL_SIGN | ADS_SASL_SEAL.

(** [ZERO_STRUCTP]: every member zero. *)
Definition ZERO_STRUCT : ADS_STRUCT :=
  {| is_mine := false;
     server := {| server_realm := None; server_workgroup := None;
                  server_ldap_server := None |};
     auth := {| auth_realm := None; auth_password := None;
                auth_user_name := None; auth_kdc_server := None;
                auth_flags := 0; auth_ccache_name := None |};
     config := {| ldap_page_size := 0; config_realm := None;
                  bind_path := None; ldap_server_name := None;
                  server_site_name := None; client_site_name := None;
                  schema_path := None; config_path := None |} |}.

Definition set_server (v : ads_server) (a : ADS_STRUCT) : ADS_STRUCT :=
  {| is_mine := is_mine a; server := v; auth := auth a; config := config a |}.

Definition set_is_mine (v : bool) (a : ADS_STRUCT) : ADS_STRUCT :=
  {| is_mine := v; server := server a; auth := auth a; config := config a |}.

Definition set_auth (v : ads_auth) (a : ADS_STRUCT) : ADS_STRUCT :=
  {| is_mine := is_mine a; server := server a; auth := v; config := config a |}.

Definition set_config (v : ads_config) (a : ADS_STRUCT) : ADS_STRUCT :=
  {| is_mine := is_mine a; server := server a; auth := auth a; config := v |}.

Definition set_auth_flags (v : Z) (a : ADS_STRUCT) : ADS_STRUCT :=
  set_auth {| auth_realm := auth_realm (auth a);
              auth_password := auth_password (auth a);
              auth_user_name := auth_user_name (auth a);
              auth_kdc_server := auth_kdc_server (auth a);
              auth_flags := v;
              auth_ccache_name := auth_ccache_name (auth a) |} a.

Definition set_ldap_page_size (v : Z) (a : ADS_STRUCT) : ADS_STRUCT :=
  set_config {| ldap_page_size := v;
                config_realm := config_realm (config a);
                bind_path := bind_path (config a);
                ldap_server_name := ldap_server_name (config a);
                server_site_name := server_site_name (config a);
                client_site_name := client_site_name (config a);
                schema_path := schema_path (config a);
                config_path := config_path (config a) |} a.

(** The fifteen [SAFE_FREE]s of ads_destroy: each string is released and
    its member set to NULL. *)
Definition free_strings (a : ADS_STRUCT) : ADS_STRUCT :=
  {| is_mine := is_mine a;
     server := {| server_realm := None; server_workgroup := None;
                  server_ldap_server := None |};
     auth := {| auth_realm := None; auth_password := None;
                auth_user_name := None; auth_kdc_server := None;
                auth_flags := auth_flags (auth a); auth_ccache_name := None |};
     config := {| ldap_page_size := ldap_page_size (config a);
                  config_realm := None; bind_path := None;
                  ldap_server_name := None; server_site_name := None;
                  client_site_name := None; schema_path := None;
                  config_path := None |} |}.

(** Memory: the live ADS_STRUCT objects by address. *)
Definition addr := positive.
Abbreviation mem := (gmap addr ADS_STRUCT).

(** A computation on memory; [None] is an access to an address that is not
    live, which C leaves undefined. *)
Definition M (A : Type) : Type := mem -> option (A * mem).

Definition ret {A} (x : A) : M A := fun m => Some (x, m).

Definition bind {A B} (c : M A) (k : A -> M B) : M B :=
  fun m => match c m with
           | Some (x, m') => k x m'
           | None => None
           end.

Notation "x <- c ;; k" := (bind c (fun x => k))
  (at level 100, c at next level, right associativity).
Notation "c ;;; k" := (bind c (fun _ => k))
  (at level 100, right associativity).

Definition load (p : addr) : M ADS_STRUCT :=
  fun m => match m !! p with
           | Some a => Some (a, m)
           | None => None
           end.

Definition store (p : addr) (a : ADS_STRUCT) : M unit :=
  fun m => match m !! p with
           | Some _ => Some (tt, <[p := a]> m)
           | None => None
           end.

(** [SMB_XMALLOC_P]: a fresh object, which ads_init zeroes at once; the
    macro aborts rather than return NULL. *)
Definition xmalloc : M addr :=
  fun m => let p := fresh (dom m) in Some (p, <[p := ZERO_STRUCT]> m).

Definition free (p : addr) : M unit :=
  fun m => match m !! p with
           | Some _ => Some (tt, delete p m)
           | None => None
           end.

(** A context in storage of the caller, which it does not own, and the
    same context owning its storage. *)
Definition borrowed_context : ADS_STRUCT :=
  set_auth_flags 65
    (set_server {| server_realm := Some (cs "EXAMPLE.COM");
                   server_workgroup := Some (cs "EXAMPLE");
                   server_ldap_server := None |}
       ZERO_STRUCT).

Definition owned_context : ADS_STRUCT := set_is_mine true borrowed_context.

(** ** The functions of ads_struct.c *)

Section Ads.

(** [SMB_STRDUP] and [SMB_MALLOC] are macros of includes.h; [asprintf] is
    given the text it formats.  Each may fail: [None] (NULL, or -1 for
    asprintf) and [false] (NULL). *)
Variable SMB_STRDUP : option cstring -> option cstring.
Variable SMB_MALLOC : Z -> bool.
Variable asprintf : cstring -> option cstring.

(** [strlower_m] (lib/util) lower-cases in place and returns false on a
    character-set conversion error; [None] is that false. *)
Variable strlower_m : cstring -> option cstring.

(** The smb.conf getters of loadparm and the flag constants of ads.h. *)
Variable lp_client_ldap_sasl_wrapping : Z.
Variable lp_ldap_page_size : Z.
Variable ADS_AUTH_SASL_SIGN : Z.
Variable ADS_AUTH_SASL_SEAL : Z.

(** [numbits] after the loop of lines 41-45. *)
Fixpoint count_numbits (sep r : cstring) (numbits : Z) : Z :=
  match r with
  | [] => numbits
  | c :: r' =>
      count_numbits sep r'
        (if strchr sep c then to_int (numbits + 1) else numbits)
  end.

(** [len] of line 47: the arithmetic is done in [size_t] and the result
    stored in an [int]. *)
Definition path_len (sep field r : cstring) : Z :=
  to_int (to_size_t (to_size_t (to_size_t (to_int (count_numbits sep r 0 + 1))
                                * to_size_t (strlen field + 1))
                     + strlen r + 1)).

(** The loop of lines 69-83.  [saveptr] is the state of strtok_r and
    [ret] the path so far, NULL when the unchecked SMB_STRDUP of line 81
    failed.  Every round consumes at least one byte of [saveptr]. *)
Fixpoint path_loop (fuel : nat) (sep field : cstring) (reverse : Z)
    (saveptr : cstring) (ret : option cstring) : option cstring :=
  match fuel with
  | O => ret
  | S fuel' =>
      match strtok_r saveptr sep with
      | None => ret
      | Some (p, saveptr') =>
          let s :=
            if Z.eqb reverse 0
            then fmt_s ret ++ cs "," ++ field ++ p
            else field ++ p ++ cs "," ++ fmt_s ret in
          match asprintf s with
          | None => None
          | Some s => path_loop fuel' sep field reverse saveptr'
                        (SMB_STRDUP (Some s))
          end
      end
  end.

Definition ads_build_path (realm : option cstring) (sep field : cstring)
    (reverse : Z) : option cstring :=
  match SMB_STRDUP realm with
  | None => None
  | Some [] => Some []
  | Some r =>
      let len := path_len sep field r in
      if negb (SMB_MALLOC len) then None
      else
        let (ret, n) := strlcpy field (to_size_t len) in
        if n >=? to_size_t len then None
        else
          match strtok_r r sep with
          | None => Some ret
          | Some (p, saveptr) =>
              let (ret, n) := strlcat ret p (to_size_t len) in
              if n >=? to_size_t len then None
              else path_loop (length saveptr) sep field reverse saveptr
                     (Some ret)
          end
  end.

Definition ads_build_dn (realm : option cstring) : option cstring :=
  ads_build_path realm (cs ".") (cs "dc=") 0.

Definition ads_build_domain (dn : option cstring) : option cstring :=
  match SMB_STRDUP dn with
  | None => None
  | Some dnsdomain =>
      match strlower_m dnsdomain with
      | None => None
      | Some dnsdomain =>
          let dnsdomain := all_string_sub dnsdomain (cs "dc=") (cs "") in
          let dnsdomain := all_string_sub dnsdomain (cs ",") (cs ".") in
          Some dnsdomain
      end
  end.

(** [p ? SMB_STRDUP(p) : NULL] *)
Definition dup_if_set (p : option cstring) : option cstring :=
  match p with
  | Some _ => SMB_STRDUP p
  | None => None
  end.

(** [wrap_flags] of ads_init at line 170; an [int]. *)
Definition init_wrap_flags (sasl_state : ads_sasl_state_e) : Z :=
  let wrap_flags := lp_client_ldap_sasl_wrapping in
  let wrap_flags := if wrap_flags =? -1 then 0 else wrap_flags in
  match sasl_state with
  | ADS_SASL_PLAIN => wrap_flags
  | ADS_SASL_SIGN => Z.lor wrap_flags ADS_AUTH_SASL_SIGN
  | ADS_SASL_SEAL => Z.lor wrap_flags ADS_AUTH_SASL_SEAL
  end.

(** Built without HAVE_LDAP: the transport members are not touched. *)
Definition ads_init (realm workgroup ldap_server : option cstring)
    (sasl_state : ads_sasl_state_e) : M addr :=
  ads <- xmalloc ;;
  store ads ZERO_STRUCT ;;;
  a <- load ads ;;
  store ads (set_server {| server_realm := dup_if_set realm;
                           server_workgroup := dup_if_set workgroup;
                           server_ldap_server := dup_if_set ldap_server |}
               a) ;;;
  a <- load ads ;;
  store ads (set_is_mine true a) ;;;
  a <- load ads ;;
  store ads (set_auth_flags (to_unsigned (init_wrap_flags sasl_state)) a) ;;;
  a <- load ads ;;
  store ads (set_ldap_page_size lp_ldap_page_size a) ;;;
  ret ads.

Definition ads_set_sasl_wrap_flags (ads : option addr) (flags : Z)
  : M bool :=
  match ads with
  | None => ret false
  | Some ads =>
      a <- load ads ;;
      let other_flags :=
        Z.land (auth_flags (auth a))
          (to_unsigned
             (Z.lnot (Z.lor ADS_AUTH_SASL_SIGN ADS_AUTH_SASL_SEAL))) in
      store ads (set_auth_flags (Z.lor flags other_flags) a) ;;;
      ret true
  end.

(** [ads] points to the caller's [ADS_STRUCT *] variable; the result is
    the value of that variable afterwards.  [None] is a null [ads],
    [Some None] a variable holding NULL. *)
Definition ads_destroy (ads : option (option addr))
  : M (option (option addr)) :=
  match ads with
  | Some (Some p) =>
      a <- load p ;;
      let is_mine := is_mine a in
      store p (free_strings a) ;;;
      store p ZERO_STRUCT ;;;
      if is_mine then free p ;;; ret (Some None)
      else ret (Some (Some p))
  | _ => ret ads
  end.

(** What the specification says of ads_init: the base bitset of the policy
    source, empty when the source reports an error (-1), and the bits a
    SASL state adds. *)
Definition policy_base : Z :=
  if lp_client_ldap_sasl_wrapping =? -1 then 0
  else lp_client_ldap_sasl_wrapping.

Definition sasl_state_bits (sasl_state : ads_sasl_state_e) : Z :=
  match sasl_state with
  | ADS_SASL_PLAIN => 0
  | ADS_SASL_SIGN => ADS_AUTH_SASL_SIGN
  | ADS_SASL_SEAL => ADS_AUTH_SASL_SEAL
  end.

(** The signing and sealing bits together. *)
Definition wrap_mask : Z := Z.lor ADS_AUTH_SASL_SIGN ADS_AUTH_SASL_SEAL.

(** The bits ads_set_sasl_wrap_flags keeps of the old flags:
    [~(ADS_AUTH_SASL_SIGN|ADS_AUTH_SASL_SEAL)] as an [unsigned]. *)
Definition kept_bits : Z := to_unsigned (Z.lnot wrap_mask).

(** The flags member holds an [unsigned] value. *)
Definition flags_unsigned (a : ADS_STRUCT) : Prop :=
  0 <= auth_flags (auth a) < 4294967296.

(** ** Machine integers *)

Lemma to_int_small z : -2147483648 <= z <= INT_MAX -> to_int z = z.
Proof.
  unfold to_int, INT_MAX. intros H.
  rewrite Z.mod_small by lia. lia.
Qed.

Lemma to_size_t_small z :
  0 <= z < 18446744073709551616 -> to_size_t z = z.
Proof. unfold to_size_t. intros H. now rewrite Z.mod_small. Qed.

Lemma strlen_nonneg s : 0 <= strlen s.
Proof. unfold strlen. lia. Qed.

Lemma strlen_app s t : strlen (s ++ t) = strlen s + strlen t.
Proof. unfold strlen. rewrite length_app. lia. Qed.

(** ** Tokens *)

Lemma split_fields_not_nil delim s : split_fields delim s <> [].
Proof.
  destruct s as [|c s]; simpl; [discriminate|].
  destruct (is_delim delim c); [discriminate|].
  destruct (split_fields delim s); discriminate.
Qed.

Lemma tokens_delim delim c s :
  is_delim delim c = true -> tokens delim (c :: s) = tokens delim s.
Proof. unfold tokens. simpl. intros ->. reflexivity. Qed.

Lemma tokens_skip_delims delim s :
  tokens delim (skip_delims delim s) = tokens delim s.
Proof.
  induction s as [|c s IH]; simpl; [reflexivity|].
  destruct (is_delim delim c) eqn:E; [|reflexivity].
  now rewrite IH, tokens_delim.
Qed.

Lemma skip_delims_length delim s :
  (length (skip_delims delim s) <= length s)%nat.
Proof.
  induction s as [|c s IH]; simpl; [lia|].
  destruct (is_delim delim c); simpl; lia.
Qed.

Lemma skip_delims_head delim s c s' :
  skip_delims delim s = c :: s' -> is_delim delim c = false.
Proof.
  induction s as [|a s IH]; simpl; [discriminate|].
  destruct (is_delim delim a) eqn:E; [exact IH|].
  intros [= <- _]. exact E.
Qed.

(** A token and what follows it make up the string; the fields of the
    string are the token and the fields after the delimiter. *)
Lemma break_token_split delim s tok rest :
  break_token delim s = (tok, rest) ->
  s = tok ++ rest /\
  forallb (fun c => negb (is_delim delim c)) tok = true /\
  split_fields delim s =
    match rest with
    | [] => [tok]
    | _ :: r => tok :: split_fields delim r
    end.
Proof.
  revert tok rest. induction s as [|c s IH]; simpl; intros tok rest.
  - intros [= <- <-]. auto.
  - destruct (is_delim delim c) eqn:E.
    + intros [= <- <-]. auto.
    + destruct (break_token delim s) as [tok' rest'] eqn:B.
      intros [= <- <-]. destruct (IH _ _ eq_refl) as (Happ & Hf & Hs).
      simpl. rewrite E, Hf, Hs. subst s.
      repeat split. now destruct rest'.
Qed.

(** What strtok_r returns, in terms of the tokens of the string. *)
Lemma strtok_r_tokens s delim :
  match strtok_r s delim with
  | None => tokens delim s = []
  | Some (p, saveptr) =>
      tokens delim s = p :: tokens delim saveptr /\
      p <> [] /\
      (length p + length saveptr <= length s)%nat
  end.
Proof.
  unfold strtok_r.
  pose proof (tokens_skip_delims delim s) as Ht.
  pose proof (skip_delims_length delim s) as Hl.
  destruct (skip_delims delim s) as [|c s1] eqn:Hs.
  - now rewrite <- Ht.
  - destruct (break_token delim (c :: s1)) as [tok rest] eqn:B.
    pose proof (skip_delims_head _ _ _ _ Hs) as Hc.
    destruct (break_token_split _ _ _ _ B) as (Happ & _ & Hsplit).
    assert (tok <> []) as Hne.
    { simpl in B. rewrite Hc in B.
      destruct (break_token delim s1). now injection B as <- _. }
    rewrite <- Ht. unfold tokens at 1. rewrite Hsplit.
    assert (length (c :: s1) = length tok + length rest)%nat as Hlen
      by now rewrite Happ, length_app.
    destruct tok as [|t tok]; [contradiction|].
    destruct rest as [|d rest]; simpl in *; repeat split;
      try discriminate; lia.
Qed.

(** ** Joining *)

Lemma join_cons d x l : l <> [] -> join d (x :: l) = x ++ d ++ join d l.
Proof. destruct l; [contradiction|reflexivity]. Qed.

Lemma join_head_app d x y l : join d ((x ++ y) :: l) = x ++ join d (y :: l).
Proof. destruct l; simpl; [reflexivity|]. now rewrite <- app_assoc. Qed.

Lemma join_last_app d l y x :
  join d (l ++ [y ++ d ++ x]) = join d (l ++ [y; x]).
Proof.
  induction l as [|a l IH]; [reflexivity|].
  rewrite <- !app_comm_cons, !join_cons, IH; try reflexivity;
    now destruct l.
Qed.

Lemma fold_append field l x :
  fold_left (fun acc p => acc ++ cs "," ++ field ++ p) l x =
  join (cs ",") (x :: map (app field) l).
Proof.
  revert x. induction l as [|t l IH]; intros x; [reflexivity|].
  cbn [fold_left map]. rewrite IH. do 2 rewrite join_head_app.
  rewrite (join_cons _ x) by discriminate. reflexivity.
Qed.

Lemma fold_prepend field l x :
  fold_left (fun acc p => field ++ p ++ cs "," ++ acc) l x =
  join (cs ",") (map (app field) (rev l) ++ [x]).
Proof.
  revert x. induction l as [|t l IH]; intros x; [reflexivity|].
  cbn [fold_left rev]. rewrite IH, map_app, <- app_assoc. cbn [map app].
  rewrite <- join_last_app. now rewrite <- !app_assoc.
Qed.

(** ** The capacity of line 47 *)

Lemma count_numbits_count sep r n :
  0 <= n -> n + strlen r <= INT_MAX ->
  count_numbits sep r n = n + Z.of_nat (count_strchr sep r).
Proof.
  unfold strlen, count_strchr. revert n.
  induction r as [|c r IH]; simpl; intros n H0 H; [lia|].
  destruct (strchr sep c); simpl.
  - rewrite to_int_small by (unfold INT_MAX in *; lia).
    rewrite IH by lia. lia.
  - rewrite IH by lia. lia.
Qed.

Lemma count_strchr_le sep r : (count_strchr sep r <= length r)%nat.
Proof. apply filter_length_le. Qed.

Lemma path_capacity_lower sep field r :
  strlen field + strlen r + 2 <= path_capacity sep field r.
Proof.
  unfold path_capacity.
  pose proof (strlen_nonneg field). pose proof (strlen_nonneg r). nia.
Qed.

Lemma path_len_capacity sep field r :
  path_capacity sep field r <= INT_MAX ->
  path_len sep field r = path_capacity sep field r.
Proof.
  intros H. pose proof (path_capacity_lower sep field r) as Hlow.
  pose proof (strlen_nonneg field) as Hf. pose proof (strlen_nonneg r) as Hr.
  assert (Z.of_nat (count_strchr sep r) <= strlen r) as Hc
    by (pose proof (count_strchr_le sep r); unfold strlen; lia).
  unfold path_len. rewrite count_numbits_count by lia.
  unfold path_capacity in *.
  set (k := Z.of_nat (count_strchr sep r)) in *.
  set (lf := strlen field) in *. set (lr := strlen r) in *.
  assert (0 <= k) by (unfold k; lia).
  assert (0 <= (k + 1) * (lf + 1) <= INT_MAX) by nia.
  unfold INT_MAX in *.
  replace (0 + k + 1) with (k + 1) by lia.
  rewrite (to_int_small (k + 1)) by (unfold INT_MAX; lia).
  rewrite (to_size_t_small (k + 1)) by lia.
  rewrite (to_size_t_small (lf + 1)) by lia.
  rewrite (to_size_t_small (_ * _)) by lia.
  rewrite to_size_t_small by lia.
  apply to_int_small. unfold INT_MAX. lia.
Qed.

(** ** The loop of ads_build_path *)

Lemma strtok_r_nil delim : strtok_r [] delim = None.
Proof. reflexivity. Qed.

Lemma strtok_r_shorter s delim p saveptr :
  strtok_r s delim = Some (p, saveptr) ->
  (length saveptr < length s)%nat.
Proof.
  intros E. pose proof (strtok_r_tokens s delim) as H. rewrite E in H.
  destruct H as (_ & Hp & Hl). destruct p; [contradiction|].
  simpl in Hl. lia.
Qed.

(** The loop ends before its fuel does: any two amounts of fuel that
    cover the bytes left give the same result. *)
Lemma path_loop_fuel_irrelevant sep field reverse f1 :
  forall f2 saveptr ret,
    (length saveptr <= f1)%nat -> (length saveptr <= f2)%nat ->
    path_loop f1 sep field reverse saveptr ret =
    path_loop f2 sep field reverse saveptr ret.
Proof.
  induction f1 as [|f1 IH]; intros f2 saveptr ret H1 H2.
  - destruct saveptr; [|simpl in H1; lia].
    destruct f2; reflexivity.
  - destruct f2 as [|f2].
    + destruct saveptr; [reflexivity|simpl in H2; lia].
    + simpl. destruct (strtok_r saveptr sep) as [[p saveptr']|] eqn:E;
        [|reflexivity].
      apply strtok_r_shorter in E.
      destruct (asprintf _); [|reflexivity].
      apply IH; lia.
Qed.

Lemma path_loop_fuel fuel sep field reverse saveptr ret :
  (length saveptr <= fuel)%nat ->
  path_loop fuel sep field reverse saveptr ret =
  path_loop (length saveptr) sep field reverse saveptr ret.
Proof. intros H. apply path_loop_fuel_irrelevant; lia. Qed.

(** ** Runs in which no allocation fails *)

Hypothesis strdup_ok : forall s, SMB_STRDUP (Some s) = Some s.
Hypothesis malloc_ok : forall size, 0 < size -> SMB_MALLOC size = true.
Hypothesis asprintf_ok : forall s, asprintf s = Some s.

Lemma path_loop_tokens sep field reverse fuel :
  forall saveptr ret,
    (length saveptr <= fuel)%nat ->
    path_loop fuel sep field reverse saveptr (Some ret) =
    Some (fold_left (path_step field reverse) (tokens sep saveptr) ret).
Proof.
  induction fuel as [|fuel IH]; intros saveptr ret Hf.
  - destruct saveptr; [reflexivity|simpl in Hf; lia].
  - simpl. pose proof (strtok_r_tokens saveptr sep) as Ht.
    destruct (strtok_r saveptr sep) as [[p saveptr']|] eqn:E.
    + destruct Ht as (-> & _ & _). apply strtok_r_shorter in E.
      rewrite asprintf_ok, strdup_ok, IH by lia.
      simpl. unfold path_step at 3, fmt_s.
      now destruct (reverse =? 0).
    + now rewrite Ht.
Qed.

Lemma fold_path_step field reverse toks t :
  fold_left (path_step field reverse) toks (field ++ t) =
  expected_path field reverse (t :: toks).
Proof.
  unfold expected_path, prefixed_path, path_step.
  destruct (reverse =? 0).
  - apply fold_append.
  - rewrite fold_prepend. simpl rev. now rewrite map_app.
Qed.

(** ads_build_path on a non-empty name whose capacity fits an [int]:
    the prefix alone when the name holds no token, the path of its
    tokens otherwise. *)
Lemma ads_build_path_tokens r sep field reverse :
  r <> [] ->
  path_capacity sep field r <= INT_MAX ->
  ads_build_path (Some r) sep field reverse =
  Some match tokens sep r with
       | [] => field
       | toks => expected_path field reverse toks
       end.
Proof.
  intros Hr Hcap. unfold ads_build_path.
  rewrite strdup_ok. destruct r as [|c r']; [contradiction|].
  set (r := c :: r') in *.
  rewrite path_len_capacity by exact Hcap.
  pose proof (path_capacity_lower sep field r) as Hlow.
  pose proof (strlen_nonneg field) as Hlf.
  pose proof (strlen_nonneg r) as Hlr.
  rewrite malloc_ok by lia. simpl negb. cbv iota.
  rewrite to_size_t_small by (unfold INT_MAX in Hcap; lia).
  unfold strlcpy.
  rewrite firstn_all2 by (unfold strlen in *; lia).
  destruct (strlen field >=? path_capacity sep field r) eqn:G; [lia|].
  pose proof (strtok_r_tokens r sep) as Ht.
  destruct (strtok_r r sep) as [[p saveptr]|].
  - destruct Ht as (-> & _ & Hl). unfold strlcat.
    assert (strlen p <= strlen r) by (unfold strlen; lia).
    rewrite firstn_all2 by (unfold strlen in *; lia).
    destruct (Z.min _ _ + _ >=? _) eqn:G2; [lia|].
    rewrite path_loop_tokens by lia.
    now rewrite fold_path_step.
  - now rewrite Ht.
Qed.

(** ** Lengths *)

Lemma total_length_cons x l :
  total_length (x :: l) = (length x + total_length l)%nat.
Proof. unfold total_length. simpl. now rewrite length_app. Qed.

Lemma total_length_app l1 l2 :
  total_length (l1 ++ l2) = (total_length l1 + total_length l2)%nat.
Proof. unfold total_length. now rewrite concat_app, length_app. Qed.

Lemma total_length_rev l : total_length (rev l) = total_length l.
Proof.
  induction l as [|x l IH]; [reflexivity|].
  simpl rev. rewrite total_length_app, !total_length_cons, IH.
  unfold total_length. simpl. lia.
Qed.

Lemma total_length_prefixed field l :
  total_length (map (app field) l) =
  (length l * length field + total_length l)%nat.
Proof.
  induction l as [|x l IH]; [reflexivity|].
  simpl map. rewrite !total_length_cons, IH, length_app. simpl. lia.
Qed.

Lemma total_length_nonempty l :
  total_length (filter nonempty l) = total_length l.
Proof.
  induction l as [|x l IH]; [reflexivity|].
  simpl. destruct x; simpl; rewrite ?total_length_cons, IH; reflexivity.
Qed.

Lemma join_length d l :
  length (join d l) = (total_length l + (length l - 1) * length d)%nat.
Proof.
  induction l as [|x l IH]; [reflexivity|].
  destruct l as [|y l].
  - simpl. rewrite total_length_cons. unfold total_length. simpl. lia.
  - rewrite join_cons by discriminate.
    rewrite !length_app, IH, (total_length_cons x). simpl length. lia.
Qed.

(** Every byte of a string is a delimiter or lies in a field, and there
    is one field more than there are delimiters. *)
Lemma split_fields_lengths delim s :
  (total_length (split_fields delim s) + count_delims delim s = length s
   /\ length (split_fields delim s) = S (count_delims delim s))%nat.
Proof.
  unfold count_delims. induction s as [|c s [IH1 IH2]]; [now split|].
  simpl. destruct (is_delim delim c); simpl.
  - rewrite total_length_cons. simpl. lia.
  - destruct (split_fields delim s) as [|f fs]; [discriminate|].
    rewrite total_length_cons in *. simpl in *. lia.
Qed.

Lemma count_delims_strchr delim s :
  (count_delims delim s <= count_strchr delim s)%nat.
Proof.
  unfold count_delims, count_strchr, strchr, is_delim.
  induction s as [|c s IH]; simpl; [lia|].
  destruct (existsb (Ascii.eqb c) delim); simpl.
  - rewrite orb_true_r. simpl. lia.
  - destruct (Ascii.eqb c NUL); simpl; lia.
Qed.

(** The tokens of a string and the delimiters between them fit in it. *)
Lemma tokens_lengths delim s :
  (length (tokens delim s) <= S (count_delims delim s) /\
   total_length (tokens delim s) + count_delims delim s = length s)%nat.
Proof.
  destruct (split_fields_lengths delim s) as [H1 H2]. unfold tokens.
  rewrite total_length_nonempty. split; [|exact H1].
  rewrite <- H2. apply filter_length_le.
Qed.

Lemma expected_path_length field reverse toks :
  toks <> [] ->
  strlen (expected_path field reverse toks) =
  Z.of_nat (length toks) * strlen field + Z.of_nat (total_length toks)
  + (Z.of_nat (length toks) - 1).
Proof.
  intros Hne. unfold expected_path, prefixed_path, strlen.
  rewrite join_length, total_length_prefixed, length_map.
  destruct (reverse =? 0); rewrite ?length_rev, ?total_length_rev;
    (destruct toks; [contradiction|]; simpl length; lia).
Qed.

(** ** ads_build_path, ads_build_dn *)

Lemma tokens_nil delim : tokens delim [] = [].
Proof. reflexivity. Qed.

Lemma tokens_all_delims delim s :
  forallb (is_delim delim) s = true -> tokens delim s = [].
Proof.
  induction s as [|c s IH]; [reflexivity|].
  simpl. intros [Hc Hs]%andb_prop. rewrite tokens_delim by exact Hc.
  now apply IH.
Qed.

Lemma ads_build_path_some_tokens r sep field reverse :
  tokens sep r <> [] ->
  path_capacity sep field r <= INT_MAX ->
  ads_build_path (Some r) sep field reverse =
  Some (expected_path field reverse (tokens sep r)).
Proof.
  intros Ht Hcap. rewrite ads_build_path_tokens; trivial.
  - now destruct (tokens sep r).
  - intros ->. now apply Ht.
Qed.


(** C6 (as amended): when the capacity of line 47 fits an [int], with a
    non-zero [reverse] each new token is put in front of the path built so
    far, so the tokens come out in the opposite order; and "a.b.c" gives
    "dc=c,dc=b,dc=a". *)
Theorem ads_build_path_reverse :
  (forall name sep field reverse,
      reverse <> 0 ->
      tokens sep name <> [] ->
      path_capacity sep field name <= INT_MAX ->
      ads_build_path (Some name) sep field reverse =
      Some (prefixed_path field (rev (tokens sep name)))) /\
  (forall field toks t,
      toks <> [] ->
      prefixed_path field (rev (toks ++ [t])) =
      field ++ t ++ cs "," ++ prefixed_path field (rev toks)) /\
  ads_build_path (Some (cs "a.b.c")) (cs ".") (cs "dc=") 1 =
  Some (cs "dc=c,dc=b,dc=a").
Proof.
  split; [|split].
  - intros name sep field reverse Hr Ht Hcap.
    rewrite ads_build_path_some_tokens by assumption.
    unfold expected_path. now destruct (Z.eqb_spec reverse 0).
  - intros field toks t Hne. unfold prefixed_path.
    rewrite rev_app_distr. simpl rev. simpl app. simpl map.
    rewrite join_cons, <- app_assoc; [reflexivity|].
    destruct toks as [|x toks]; [contradiction|]. simpl.
    now destruct (rev toks).
  - rewrite ads_build_path_some_tokens.
    + reflexivity.
    + discriminate.
    + now vm_compute.
Qed.

(** C10 (as amended): when the capacity of line 47 fits an [int], a
    non-empty name made of separators only gives the bare prefix; ".."
    with prefix "dc=" gives "dc=". *)
Theorem ads_build_path_only_separators :
  (forall name sep field reverse,
      name <> [] ->
      forallb (is_delim sep) name = true ->
      path_capacity sep field name <= INT_MAX ->
      ads_build_path (Some name) sep field reverse = Some field) /\
  ads_build_path (Some (cs "..")) (cs ".") (cs "dc=") 0 = Some (cs "dc=").
Proof.
  assert (forall name sep field reverse,
             name <> [] ->
             forallb (is_delim sep) name = true ->
             path_capacity sep field name <= INT_MAX ->
             ads_build_path (Some name) sep field reverse = Some field)
    as H.
  { intros name sep field reverse Hne Hall Hcap.
    rewrite ads_build_path_tokens by assumption.
    now rewrite tokens_all_delims. }
  split; [exact H|].
  apply H; [discriminate|reflexivity|now vm_compute].
Qed.

(** C9 (as amended): an empty name gives the empty string, and NULL when
    its duplication fails; no other result signals an error. *)
Theorem ads_build_path_empty_name sep field reverse :
  (SMB_STRDUP (Some []) = Some [] ->
   ads_build_path (Some []) sep field reverse = Some []) /\
  (SMB_STRDUP (Some []) = None ->
   ads_build_path (Some []) sep field reverse = None).
Proof.
  unfold ads_build_path. split; intros E; now rewrite E.
Qed.

(** Whatever the sizes, when SMB_STRDUP and asprintf succeed a path that
    comes back is complete: the two tests of lines 55 and 63 turn every
    truncation into NULL. *)
Lemma ads_build_path_complete r sep field reverse :
  r <> [] ->
  ads_build_path (Some r) sep field reverse = None \/
  ads_build_path (Some r) sep field reverse =
  Some match tokens sep r with
       | [] => field
       | toks => expected_path field reverse toks
       end.
Proof.
  intros Hr. unfold ads_build_path. rewrite strdup_ok.
  destruct r as [|c r']; [contradiction|]. set (r := c :: r') in *.
  set (size := to_size_t (path_len sep field r)).
  destruct (SMB_MALLOC _); [|now left]. cbn [negb]. cbv iota.
  unfold strlcpy. destruct (strlen field >=? size) eqn:G; [now left|].
  rewrite firstn_all2 by (unfold strlen in G; lia).
  pose proof (strtok_r_tokens r sep) as Ht.
  destruct (strtok_r r sep) as [[p saveptr]|].
  - destruct Ht as (-> & _ & _). unfold strlcat.
    destruct (Z.min _ _ + _ >=? _) eqn:G2; [now left|].
    rewrite firstn_all2 by (unfold strlen in *; lia).
    rewrite path_loop_tokens by lia. rewrite fold_path_step. now right.
  - rewrite Ht. now right.
Qed.

(** C4 (as amended): when no allocation fails, for a non-empty name
    ads_build_path returns NULL or the complete path, never a truncated
    one; when moreover the capacity fits an
    [int] the tests of lines 55 and 63 are false, the path is built, and
    with its terminator it fits the capacity of line 47; it also fits
    token_count * (len(field) + 1) + len(name) + 1 when the name holds a
    token. *)
Theorem ads_build_path_capacity name sep field reverse :
  name <> [] ->
  (ads_build_path (Some name) sep field reverse = None \/
   ads_build_path (Some name) sep field reverse =
   Some match tokens sep name with
        | [] => field
        | toks => expected_path field reverse toks
        end) /\
  (path_capacity sep field name <= INT_MAX ->
   let len := path_len sep field name in
   len = path_capacity sep field name /\
   snd (strlcpy field (to_size_t len)) < to_size_t len /\
   (forall p saveptr,
       strtok_r name sep = Some (p, saveptr) ->
       snd (strlcat (fst (strlcpy field (to_size_t len))) p (to_size_t len))
       < to_size_t len) /\
   exists path,
     ads_build_path (Some name) sep field reverse = Some path /\
     strlen path + 1 <= len /\
     (tokens sep name <> [] ->
      strlen path + 1 <=
      Z.of_nat (length (tokens sep name)) * (strlen field + 1)
      + strlen name + 1)).
Proof.
  intros Hne. split; [now apply ads_build_path_complete|].
  intros Hcap len. subst len.
  rewrite path_len_capacity by exact Hcap.
  pose proof (path_capacity_lower sep field name) as Hlow.
  pose proof (strlen_nonneg field) as Hlf.
  pose proof (strlen_nonneg name) as Hln.
  rewrite to_size_t_small by (unfold INT_MAX in Hcap; lia).
  split; [reflexivity|]. split; [simpl; lia|]. split.
  - intros p saveptr E. pose proof (strtok_r_tokens name sep) as Ht.
    rewrite E in Ht. destruct Ht as (_ & _ & Hl).
    unfold strlcpy, strlcat. cbn [fst snd].
    rewrite firstn_all2 by (unfold strlen in *; lia).
    unfold strlen in *. lia.
  - rewrite ads_build_path_tokens by assumption.
    destruct (tokens_lengths sep name) as [Hk Hsum].
    pose proof (count_delims_strchr sep name) as Hd.
    destruct (tokens sep name) as [|t toks] eqn:Et.
    + exists field. split; [reflexivity|]. split; [lia|]. now intros [].
    + exists (expected_path field reverse (t :: toks)).
      split; [reflexivity|].
      rewrite expected_path_length by discriminate.
      unfold path_capacity, strlen in *.
      set (k := length (t :: toks)) in *.
      set (lf := length field) in *.
      split; [|intros _]; nia.
Qed.

(** ** Substitution *)

Lemma strstr_eq s pattern :
  strstr s pattern =
  match strip_prefix pattern s with
  | Some after => Some ([], after)
  | None =>
      match s with
      | [] => None
      | c :: s' =>
          match strstr s' pattern with
          | Some (before, after) => Some (c :: before, after)
          | None => None
          end
      end
  end.
Proof. destruct s; reflexivity. Qed.

Lemma strip_prefix_app pattern s after :
  strip_prefix pattern s = Some after -> s = pattern ++ after.
Proof.
  revert s. induction pattern as [|a pattern IH]; intros s; simpl.
  - now intros [= ->].
  - destruct s as [|b s]; [discriminate|].
    destruct (Ascii.eqb_spec a b) as [->|]; [|discriminate].
    intros H. now rewrite (IH _ H).
Qed.

(** What strstr finds is an occurrence of the pattern. *)
Lemma strstr_app s pattern before after :
  strstr s pattern = Some (before, after) ->
  s = before ++ pattern ++ after.
Proof.
  revert before. induction s as [|c s IH]; intros before;
    rewrite strstr_eq.
  - destruct (strip_prefix pattern []) eqn:E; [|discriminate].
    intros [= <- <-]. apply strip_prefix_app in E. exact E.
  - destruct (strip_prefix pattern (c :: s)) eqn:E.
    + intros [= <- <-]. apply strip_prefix_app in E. exact E.
    + destruct (strstr s pattern) as [[b a]|]; [|discriminate].
      intros [= <- <-]. simpl. now rewrite <- (IH b).
Qed.

Lemma strstr_shorter s pattern before after :
  pattern <> [] ->
  strstr s pattern = Some (before, after) ->
  (length after < length s)%nat.
Proof.
  intros Hp E. apply strstr_app in E. subst s.
  rewrite !length_app. destruct pattern; [contradiction|]. simpl. lia.
Qed.

(** The scan of all_string_sub ends before its fuel does. *)
Lemma all_string_sub_loop_fuel pattern insert fuel :
  pattern <> [] ->
  forall s,
    (length s <= fuel)%nat ->
    all_string_sub_loop fuel s pattern insert =
    all_string_sub_loop (length s) s pattern insert.
Proof.
  intros Hp. induction fuel as [fuel IH] using lt_wf_ind. intros s Hs.
  destruct fuel as [|fuel].
  - now destruct s.
  - destruct s as [|c s].
    + destruct pattern; [contradiction|]. reflexivity.
    + cbn [all_string_sub_loop length].
      destruct (strstr (c :: s) pattern) as [[b a]|] eqn:E; [|reflexivity].
      apply strstr_shorter in E; [|exact Hp]. simpl in *.
      rewrite (IH fuel), (IH (length s)); trivial; lia.
Qed.

Lemma strip_prefix_dc s :
  strip_prefix (cs "dc=") s =
  match s with
  | c1 :: c2 :: c3 :: s3 => if is_dc_eq c1 c2 c3 then Some s3 else None
  | _ => None
  end.
Proof.
  unfold is_dc_eq. destruct s as [|c1 [|c2 [|c3 s3]]];
    cbn [cs list_ascii_of_string strip_prefix];
    rewrite ?(Ascii.eqb_sym "d"), ?(Ascii.eqb_sym "c"), ?(Ascii.eqb_sym "=");
    repeat match goal with
           | |- context [Ascii.eqb ?a ?b] => destruct (Ascii.eqb a b)
           end; reflexivity.
Qed.

Lemma remove_dc_cons c s :
  remove_dc (c :: s) =
  match strip_prefix (cs "dc=") (c :: s) with
  | Some after => remove_dc after
  | None => c :: remove_dc s
  end.
Proof.
  rewrite strip_prefix_dc. destruct s as [|c2 [|c3 s3]]; try reflexivity.
  cbn [remove_dc]. now destruct (is_dc_eq c c2 c3).
Qed.

Lemma strstr_remove_dc s :
  match strstr s (cs "dc=") with
  | None => remove_dc s = s
  | Some (before, after) => remove_dc s = before ++ remove_dc after
  end.
Proof.
  induction s as [|c s IH]; [reflexivity|].
  rewrite strstr_eq, remove_dc_cons.
  destruct (strip_prefix (cs "dc=") (c :: s)); [reflexivity|].
  destruct (strstr s (cs "dc=")) as [[b a]|]; simpl; now rewrite IH.
Qed.

(** The substitution of "dc=" by "" removes every occurrence of "dc=". *)
Lemma all_string_sub_remove_dc s :
  all_string_sub s (cs "dc=") (cs "") = remove_dc s.
Proof.
  unfold all_string_sub. cbn [cs list_ascii_of_string].
  change ("d"%char :: "c"%char :: "="%char :: []) with (cs "dc=").
  remember (length s) as n eqn:Hn.
  assert (length s <= n)%nat as Hle by lia. clear Hn.
  revert s Hle. induction n as [|n IH]; intros s Hle.
  - destruct s; [reflexivity|simpl in Hle; lia].
  - cbn [all_string_sub_loop]. pose proof (strstr_remove_dc s) as H.
    destruct (strstr s (cs "dc=")) as [[b a]|] eqn:E; [|now rewrite H].
    apply strstr_shorter in E; [|discriminate].
    rewrite H, IH by lia. reflexivity.
Qed.

Lemma strstr_commas s :
  match strstr s (cs ",") with
  | None => commas_to_periods s = s
  | Some (before, after) =>
      commas_to_periods s = before ++ cs "." ++ commas_to_periods after
  end.
Proof.
  induction s as [|c s IH]; [reflexivity|].
  rewrite strstr_eq. cbn [cs list_ascii_of_string strip_prefix].
  unfold commas_to_periods. cbn [map].
  rewrite (Ascii.eqb_sym "," c). destruct (Ascii.eqb_spec c ",") as [->|Hc].
  - reflexivity.
  - fold (commas_to_periods s).
    change ("," :: [])%char with (cs ",").
    destruct (strstr s (cs ",")) as [[b a]|]; simpl; now rewrite IH.
Qed.

(** The substitution of "," by "." replaces every comma. *)
Lemma all_string_sub_commas s :
  all_string_sub s (cs ",") (cs ".") = commas_to_periods s.
Proof.
  unfold all_string_sub. cbn [cs list_ascii_of_string].
  change ("," :: [])%char with (cs ","). change ("." :: [])%char with (cs ".").
  remember (length s) as n eqn:Hn.
  assert (length s <= n)%nat as Hle by lia. clear Hn.
  revert s Hle. induction n as [|n IH]; intros s Hle.
  - destruct s; [reflexivity|simpl in Hle; lia].
  - cbn [all_string_sub_loop]. pose proof (strstr_commas s) as H.
    destruct (strstr s (cs ",")) as [[b a]|] eqn:E; [|now rewrite H].
    apply strstr_shorter in E; [|discriminate].
    rewrite H, IH by lia. reflexivity.
Qed.

(** ** ads_build_domain *)

(** [strlower_m] lower-cases a string of 7-bit bytes byte by byte. *)
Hypothesis strlower_m_ascii :
  forall s, forallb is_ascii7 s = true -> strlower_m s = Some (lowercase s).

Lemma ads_build_domain_eq dn :
  ads_build_domain (Some dn) =
  option_map (fun low => commas_to_periods (remove_dc low)) (strlower_m dn).
Proof.
  unfold ads_build_domain. rewrite strdup_ok.
  destruct (strlower_m dn) as [low|]; [|reflexivity].
  cbn [option_map]. now rewrite all_string_sub_remove_dc, all_string_sub_commas.
Qed.

(** C7 (as amended): when lower-casing succeeds, as it does on 7-bit
    input, ads_build_domain returns the lower-cased input with every
    "dc=" removed and every comma replaced by a period; when
    [strlower_m] reports an error it returns NULL. *)
Theorem ads_build_domain_lowered dn :
  (strlower_m dn = None -> ads_build_domain (Some dn) = None) /\
  (forall low,
      strlower_m dn = Some low ->
      ads_build_domain (Some dn) = Some (commas_to_periods (remove_dc low))) /\
  (forallb is_ascii7 dn = true ->
   ads_build_domain (Some dn) =
   Some (commas_to_periods (remove_dc (lowercase dn)))) /\
  ads_build_domain (Some (cs "dc=example,dc=com")) = Some (cs "example.com").
Proof.
  repeat split.
  - intros E. now rewrite ads_build_domain_eq, E.
  - intros low E. now rewrite ads_build_domain_eq, E.
  - intros H. now rewrite ads_build_domain_eq, strlower_m_ascii.
  - now rewrite ads_build_domain_eq, strlower_m_ascii.
Qed.

(** ** The round trip *)

Lemma is_delim_dot c : is_delim (cs ".") c = Ascii.eqb c ".".
Proof. unfold is_delim. simpl. apply orb_false_r. Qed.

(** Joining the fields between dots with dots gives the string back. *)
Lemma join_split_fields_dot s :
  join (cs ".") (split_fields (cs ".") s) = s.
Proof.
  induction s as [|c s IH]; [reflexivity|].
  cbn [split_fields]. rewrite is_delim_dot.
  pose proof (split_fields_not_nil (cs ".") s) as Hne.
  destruct (Ascii.eqb_spec c ".") as [->|_].
  - rewrite join_cons by exact Hne. now rewrite IH.
  - destruct (split_fields (cs ".") s) as [|f fs]; [contradiction|].
    change (c :: f) with ([c] ++ f). rewrite join_head_app, IH.
    reflexivity.
Qed.

Lemma filter_nonempty_labels l :
  forallb realm_label l = true -> filter nonempty l = l.
Proof.
  induction l as [|x l IH]; [reflexivity|].
  simpl. unfold realm_label at 1.
  intros [[Hx _]%andb_prop Hl]%andb_prop. rewrite Hx. now rewrite IH.
Qed.

Lemma realm_shape_tokens realm :
  realm_shape realm = true ->
  tokens (cs ".") realm = split_fields (cs ".") realm.
Proof. intros H. now apply filter_nonempty_labels. Qed.

Lemma realm_labels_alnum l :
  forallb realm_label l = true ->
  forallb (forallb is_lower_alnum) l = true.
Proof.
  induction l as [|x l IH]; [reflexivity|].
  simpl. unfold realm_label at 1.
  intros [[_ Hx]%andb_prop Hl]%andb_prop. now rewrite Hx, IH.
Qed.

(** What a lower-case letter or a digit is not. *)
Lemma is_lower_alnum_facts c :
  is_lower_alnum c = true ->
  is_ascii7 c = true /\ is_upper c = false /\
  Ascii.eqb c "=" = false /\ Ascii.eqb c "," = false.
Proof.
  intros H. repeat split.
  - unfold is_lower_alnum, is_ascii7 in *.
    apply Nat.ltb_lt.
    apply orb_prop in H as [[_ H]%andb_prop | [_ H]%andb_prop];
      apply Nat.leb_le in H; lia.
  - unfold is_lower_alnum, is_upper in *.
    apply orb_prop in H as [[H _]%andb_prop | [_ H]%andb_prop];
      apply Nat.leb_le in H; apply andb_false_iff;
      [right|left]; apply Nat.leb_gt; lia.
  - destruct (Ascii.eqb_spec c "=") as [->|]; [discriminate H|reflexivity].
  - destruct (Ascii.eqb_spec c ",") as [->|]; [discriminate H|reflexivity].
Qed.

Lemma forallb_weaken (P Q : ascii -> bool) s :
  (forall c, P c = true -> Q c = true) ->
  forallb P s = true -> forallb Q s = true.
Proof.
  intros HPQ. induction s as [|c s IH]; [reflexivity|].
  simpl. intros [Hc Hs]%andb_prop. now rewrite (HPQ c Hc), IH.
Qed.

Lemma forallb_tokens_weaken (P Q : ascii -> bool) l :
  (forall c, P c = true -> Q c = true) ->
  forallb (forallb P) l = true -> forallb (forallb Q) l = true.
Proof.
  intros HPQ. induction l as [|x l IH]; [reflexivity|].
  simpl. intros [Hx Hl]%andb_prop.
  now rewrite (forallb_weaken P Q x HPQ Hx), IH.
Qed.

Lemma forallb_join (P : ascii -> bool) d l :
  forallb P d = true ->
  forallb (forallb P) l = true ->
  forallb P (join d l) = true.
Proof.
  intros Hd. induction l as [|x l IH]; [reflexivity|].
  simpl forallb at 1. intros [Hx Hl]%andb_prop.
  destruct l as [|y l]; [exact Hx|].
  rewrite join_cons by discriminate.
  now rewrite !forallb_app, Hx, Hd, IH.
Qed.

Lemma forallb_prefixed (P : ascii -> bool) field l :
  forallb P field = true ->
  forallb (forallb P) l = true ->
  forallb (forallb P) (map (app field) l) = true.
Proof.
  intros Hf. induction l as [|x l IH]; [reflexivity|].
  simpl. intros [Hx Hl]%andb_prop. now rewrite forallb_app, Hf, Hx, IH.
Qed.

Lemma lowercase_fixed s :
  forallb (fun c => negb (is_upper c)) s = true -> lowercase s = s.
Proof.
  induction s as [|c s IH]; [reflexivity|].
  simpl. intros [Hc Hs]%andb_prop. unfold tolower.
  apply negb_true_iff in Hc. now rewrite Hc, IH.
Qed.

Lemma remove_dc_dc s : remove_dc (cs "dc=" ++ s) = remove_dc s.
Proof. reflexivity. Qed.

Lemma remove_dc_comma s : remove_dc (cs "," ++ s) = cs "," ++ remove_dc s.
Proof. destruct s as [|c2 [|c3 s3]]; reflexivity. Qed.

(** No "dc=" starts inside a token that holds no "=", whether the token
    ends the string or a comma follows it. *)
Lemma strip_prefix_dc_token c t tail :
  forallb (other_than "=") (c :: t) = true ->
  tail = [] \/ (exists r, tail = cs "," ++ r) ->
  strip_prefix (cs "dc=") ((c :: t) ++ tail) = None.
Proof.
  intros Ht Htail. rewrite strip_prefix_dc. unfold is_dc_eq.
  destruct t as [|c2 [|c3 t3]]; destruct Htail as [-> | [r ->]];
    cbn [app cs list_ascii_of_string]; try reflexivity.
  - destruct r; [reflexivity|].
    now rewrite (andb_comm (Ascii.eqb c "d")).
  - now rewrite andb_false_r.
  - simpl in Ht. unfold other_than in Ht.
    apply andb_prop in Ht as [_ [_ [H3 _]%andb_prop]%andb_prop].
    apply negb_true_iff in H3. now rewrite H3, andb_false_r.
  - simpl in Ht. unfold other_than in Ht.
    apply andb_prop in Ht as [_ [_ [H3 _]%andb_prop]%andb_prop].
    apply negb_true_iff in H3. now rewrite H3, andb_false_r.
Qed.

Lemma remove_dc_token t tail :
  forallb (other_than "=") t = true ->
  tail = [] \/ (exists r, tail = cs "," ++ r) ->
  remove_dc (t ++ tail) = t ++ remove_dc tail.
Proof.
  intros Ht Htail. induction t as [|c t IH]; [reflexivity|].
  rewrite <- app_comm_cons, remove_dc_cons, app_comm_cons.
  rewrite strip_prefix_dc_token by assumption.
  simpl in Ht. apply andb_prop in Ht as [_ Ht]. now rewrite IH.
Qed.

(** Removing "dc=" from the path of tokens without "=" leaves the tokens,
    comma-joined. *)
Lemma remove_dc_prefixed_path toks :
  forallb (forallb (other_than "=")) toks = true ->
  remove_dc (prefixed_path (cs "dc=") toks) = join (cs ",") toks.
Proof.
  unfold prefixed_path. induction toks as [|t toks IH]; [reflexivity|].
  simpl forallb. intros [Ht Htoks]%andb_prop. cbn [map].
  destruct toks as [|t2 toks].
  - cbn [map join]. rewrite remove_dc_dc.
    rewrite <- (app_nil_r t) at 1. rewrite remove_dc_token; auto.
    simpl. apply app_nil_r.
  - rewrite !join_cons by discriminate.
    rewrite <- app_assoc, remove_dc_dc.
    rewrite remove_dc_token by eauto.
    now rewrite remove_dc_comma, IH.
Qed.

Lemma commas_to_periods_app s t :
  commas_to_periods (s ++ t) = commas_to_periods s ++ commas_to_periods t.
Proof. apply map_app. Qed.

Lemma commas_to_periods_fixed s :
  forallb (other_than ",") s = true -> commas_to_periods s = s.
Proof.
  induction s as [|c s IH]; [reflexivity|].
  simpl. unfold other_than at 1. intros [Hc Hs]%andb_prop.
  apply negb_true_iff in Hc. now rewrite Hc, IH.
Qed.

(** Replacing the commas of comma-joined tokens without commas joins them
    with periods. *)
Lemma commas_to_periods_join toks :
  forallb (forallb (other_than ",")) toks = true ->
  commas_to_periods (join (cs ",") toks) = join (cs ".") toks.
Proof.
  induction toks as [|t toks IH]; [reflexivity|].
  simpl forallb. intros [Ht Htoks]%andb_prop.
  destruct toks as [|t2 toks].
  - now apply commas_to_periods_fixed.
  - rewrite !join_cons by discriminate.
    rewrite !commas_to_periods_app, IH by assumption.
    now rewrite commas_to_periods_fixed.
Qed.


(** ** Memory *)

Lemma load_live p a (m : mem) : m !! p = Some a -> load p m = Some (a, m).
Proof. unfold load. now intros ->. Qed.

Lemma store_live p a b (m : mem) :
  m !! p = Some a -> store p b m = Some (tt, <[p := b]> m).
Proof. unfold store. now intros ->. Qed.

Lemma free_live p a (m : mem) :
  m !! p = Some a -> free p m = Some (tt, delete p m).
Proof. unfold free. now intros ->. Qed.

Lemma bind_some {A B} (c : M A) (k : A -> M B) (m m' : mem) x :
  c m = Some (x, m') -> bind c k m = k x m'.
Proof. unfold bind. now intros ->. Qed.

(** ** ads_set_sasl_wrap_flags *)

Lemma to_unsigned_testbit z i :
  0 <= i < 32 -> Z.testbit (to_unsigned z) i = Z.testbit z i.
Proof.
  intros Hi. unfold to_unsigned. change 4294967296 with (2 ^ 32).
  apply Z.mod_pow2_bits_low. lia.
Qed.

Lemma to_unsigned_testbit_high z i :
  32 <= i -> Z.testbit (to_unsigned z) i = false.
Proof.
  intros Hi. unfold to_unsigned. change 4294967296 with (2 ^ 32).
  apply Z.mod_pow2_bits_high. lia.
Qed.



(** ** ads_init *)

Lemma init_wrap_flags_eq sasl_state :
  init_wrap_flags sasl_state = Z.lor policy_base (sasl_state_bits sasl_state).
Proof.
  unfold init_wrap_flags, policy_base.
  destruct sasl_state; simpl; now rewrite ?Z.lor_0_r.
Qed.

(** The context ads_init leaves at a fresh address. *)
Lemma ads_init_eq realm workgroup ldap_server sasl_state (m : mem) :
  let p := fresh (dom m) in
  m !! p = None /\
  ads_init realm workgroup ldap_server sasl_state m =
  Some (p,
        <[p := set_ldap_page_size lp_ldap_page_size
                 (set_auth_flags (to_unsigned (init_wrap_flags sasl_state))
                    (set_is_mine true
                       (set_server
                          {| server_realm := dup_if_set realm;
                             server_workgroup := dup_if_set workgroup;
                             server_ldap_server := dup_if_set ldap_server |}
                          ZERO_STRUCT)))]> m).
Proof.
  intros p. split.
  - apply not_elem_of_dom, is_fresh.
  - unfold ads_init, xmalloc, bind, store, load, ret. fold p.
    repeat (rewrite ?lookup_insert_eq, ?insert_insert_eq; cbv iota beta).
    reflexivity.
Qed.

(** C8: ads_init sets the flags to the base bitset of the policy source,
    with nothing added for PLAIN, the signing bit for SIGN and the sealing
    bit for SEAL; the base is empty when the source reports an error. *)
Theorem ads_init_auth_flags realm workgroup ldap_server sasl_state
    (m : mem) :
  exists p a,
    ads_init realm workgroup ldap_server sasl_state m =
    Some (p, <[p := a]> m) /\
    m !! p = None /\
    auth_flags (auth a) =
    to_unsigned (Z.lor policy_base (sasl_state_bits sasl_state)) /\
    sasl_state_bits ADS_SASL_PLAIN = 0 /\
    sasl_state_bits ADS_SASL_SIGN = ADS_AUTH_SASL_SIGN /\
    sasl_state_bits ADS_SASL_SEAL = ADS_AUTH_SASL_SEAL /\
    (lp_client_ldap_sasl_wrapping = -1 ->
     auth_flags (auth a) = to_unsigned (sasl_state_bits sasl_state)) /\
    (lp_client_ldap_sasl_wrapping <> -1 ->
     policy_base = lp_client_ldap_sasl_wrapping).
Proof.
  destruct (ads_init_eq realm workgroup ldap_server sasl_state m)
    as [Hfresh Hinit].
  eexists _, _. split; [exact Hinit|]. split; [exact Hfresh|].
  cbn [auth set_ldap_page_size set_config set_auth_flags set_auth auth_flags].
  rewrite init_wrap_flags_eq. repeat split.
  - intros E. unfold policy_base. rewrite E. now rewrite Z.lor_0_l.
  - intros E. unfold policy_base.
    now destruct (Z.eqb_spec lp_client_ldap_sasl_wrapping (-1)).
Qed.

(** The context of ads_init owns its storage. *)
Lemma ads_init_is_mine realm workgroup ldap_server sasl_state (m : mem) :
  exists p a,
    ads_init realm workgroup ldap_server sasl_state m =
    Some (p, <[p := a]> m) /\ is_mine a = true.
Proof.
  destruct (ads_init_eq realm workgroup ldap_server sasl_state m)
    as [_ Hinit].
  eexists _, _. split; [exact Hinit|reflexivity].
Qed.

(** ** ads_destroy *)

Lemma ads_destroy_live p a (m : mem) :
  m !! p = Some a ->
  ads_destroy (Some (Some p)) m =
  Some (if is_mine a then (Some None, delete p m)
        else (Some (Some p), <[p := ZERO_STRUCT]> m)).
Proof.
  intros Hp. unfold ads_destroy.
  rewrite (bind_some _ _ _ _ _ (load_live _ _ _ Hp)).
  rewrite (bind_some _ _ _ _ _ (store_live _ _ _ _ Hp)).
  erewrite bind_some by (eapply store_live, lookup_insert_eq).
  rewrite insert_insert_eq. destruct (is_mine a); [|reflexivity].
  erewrite bind_some by (eapply free_live, lookup_insert_eq).
  now rewrite delete_insert_eq.
Qed.

(** C2 (as amended): destroying a live context that owns its storage
    frees it and sets the caller's pointer to NULL, and a second
    ads_destroy through the same pointer changes nothing; a context that
    does not own its storage is zeroed and the pointer is left as it
    was, and a second ads_destroy changes nothing further. *)
Theorem ads_destroy_owned p a (m : mem) :
  m !! p = Some a ->
  (is_mine a = true ->
   ads_destroy (Some (Some p)) m = Some (Some None, delete p m)) /\
  (is_mine a = false ->
   ads_destroy (Some (Some p)) m =
   Some (Some (Some p), <[p := ZERO_STRUCT]> m)) /\
  (r <- ads_destroy (Some (Some p)) ;; ads_destroy r) m =
  ads_destroy (Some (Some p)) m /\
  (forall m' : mem, ads_destroy None m' = Some (None, m')) /\
  (forall m' : mem, ads_destroy (Some None) m' = Some (Some None, m')).
Proof.
  intros Hp. pose proof (ads_destroy_live p a m Hp) as H.
  split; [|split; [|split; [|split; reflexivity]]].
  - intros Hmine. now rewrite H, Hmine.
  - intros Hmine. now rewrite H, Hmine.
  - unfold bind. rewrite H. destruct (is_mine a); [reflexivity|].
    rewrite (ads_destroy_live p ZERO_STRUCT) by apply lookup_insert_eq.
    cbn [is_mine ZERO_STRUCT]. now rewrite insert_insert_eq.
Qed.

(** ** The shape of a realm *)

Lemma is_lower_alnum_not_dot c :
  is_lower_alnum c = true -> is_delim (cs ".") c = false.
Proof.
  intros H. rewrite is_delim_dot.
  destruct (Ascii.eqb_spec c ".") as [->|]; [discriminate H|reflexivity].
Qed.

Lemma split_fields_label l :
  forallb is_lower_alnum l = true -> split_fields (cs ".") l = [l].
Proof.
  induction l as [|c l IH]; [reflexivity|].
  simpl forallb. intros [Hc Hl]%andb_prop. cbn [split_fields].
  now rewrite (is_lower_alnum_not_dot c Hc), IH.
Qed.

Lemma split_fields_label_dot l s :
  forallb is_lower_alnum l = true ->
  split_fields (cs ".") (l ++ cs "." ++ s) = l :: split_fields (cs ".") s.
Proof.
  induction l as [|c l IH]; [reflexivity|].
  simpl forallb. intros [Hc Hl]%andb_prop.
  rewrite <- app_comm_cons. cbn [split_fields].
  now rewrite (is_lower_alnum_not_dot c Hc), IH.
Qed.

Lemma realm_regex_join l :
  l <> [] -> forallb realm_label l = true ->
  realm_regex (join (cs ".") l).
Proof.
  induction l as [|x l IH]; [contradiction|]. intros _.
  simpl forallb. intros [Hx Hl]%andb_prop.
  destruct l as [|y l].
  - now apply realm_one.
  - rewrite join_cons by discriminate.
    apply realm_dot; [exact Hx|]. now apply IH.
Qed.

(** [realm_shape] decides the regular expression. *)
Lemma realm_shape_regex realm :
  realm_shape realm = true <-> realm_regex realm.
Proof.
  unfold realm_shape. split.
  - intros H. rewrite <- (join_split_fields_dot realm).
    apply realm_regex_join; [apply split_fields_not_nil|exact H].
  - induction 1 as [l Hl|l realm Hl _ IH].
    + pose proof Hl as [_ Hal]%andb_prop.
      rewrite split_fields_label by exact Hal. cbn [forallb].
      now rewrite Hl.
    + pose proof Hl as [_ Hal]%andb_prop.
      rewrite split_fields_label_dot by exact Hal. cbn [forallb].
      now rewrite Hl, IH.
Qed.

(** ** Removal of "dc=", algebraically *)

Lemma strip_prefix_app_some pattern s after t :
  strip_prefix pattern s = Some after ->
  strip_prefix pattern (s ++ t) = Some (after ++ t).
Proof.
  revert s. induction pattern as [|a pattern IH]; intros s; simpl.
  - now intros [= ->].
  - destruct s as [|b s]; [discriminate|]. simpl.
    destruct (Ascii.eqb a b); [apply IH|discriminate].
Qed.

(** An occurrence of "dc=" cannot start in the last two bytes before
    another one. *)
Lemma strip_prefix_dc_straddle c a b after :
  strip_prefix (cs "dc=") (c :: a) = None ->
  strip_prefix (cs "dc=") ((c :: a) ++ cs "dc=" ++ b) = Some after ->
  False.
Proof.
  rewrite !strip_prefix_dc. unfold is_dc_eq.
  destruct a as [|c2 [|c3 a3]]; cbn [app cs list_ascii_of_string].
  - intros _. rewrite andb_false_r. discriminate.
  - intros _. replace (Ascii.eqb "d" "=") with false by reflexivity.
    rewrite andb_false_r. discriminate.
  - destruct (Ascii.eqb c "d" && Ascii.eqb c2 "c" && Ascii.eqb c3 "=");
      discriminate.
Qed.

(** Removing every "dc=" from a string around an occurrence removes the
    occurrence and every "dc=" of the two sides. *)
Lemma remove_dc_app_dc a b :
  remove_dc (a ++ cs "dc=" ++ b) = remove_dc a ++ remove_dc b.
Proof.
  remember (length a) as n eqn:Hn. revert a Hn.
  induction n as [n IH] using lt_wf_ind. intros a Hn.
  destruct a as [|c a]; [reflexivity|].
  rewrite <- app_comm_cons, !remove_dc_cons, app_comm_cons.
  destruct (strip_prefix (cs "dc=") (c :: a)) as [after|] eqn:E.
  - rewrite (strip_prefix_app_some _ _ _ _ E).
    apply strip_prefix_app in E.
    apply (IH (length after)); [|reflexivity].
    rewrite Hn, E, length_app. simpl. lia.
  - destruct (strip_prefix (cs "dc=") ((c :: a) ++ cs "dc=" ++ b))
      as [after|] eqn:E2.
    + destruct (strip_prefix_dc_straddle _ _ _ _ E E2).
    + simpl. f_equal. apply (IH (length a)); [|reflexivity].
      rewrite Hn. simpl. lia.
Qed.

(** The flags stay an [unsigned] value. *)
Lemma set_flags_unsigned old flags :
  0 <= old < 4294967296 -> 0 <= flags < 4294967296 ->
  0 <= Z.lor flags (Z.land old (to_unsigned (Z.lnot wrap_mask)))
    < 4294967296.
Proof.
  intros Hold Hflags.
  set (x := Z.lor _ _).
  assert (to_unsigned x = x) as <-.
  { apply Z.bits_inj'. intros i Hi. unfold x.
    destruct (Z.lt_ge_cases i 32) as [Hlt|Hge].
    - now rewrite to_unsigned_testbit by lia.
    - rewrite to_unsigned_testbit_high by lia.
      rewrite Z.lor_spec, Z.land_spec.
      rewrite (to_unsigned_testbit_high (Z.lnot _)) by lia.
      rewrite <- (Z.mod_small flags 4294967296) by exact Hflags.
      fold (to_unsigned flags).
      rewrite to_unsigned_testbit_high by lia.
      now rewrite andb_false_r. }
  unfold to_unsigned. apply Z.mod_pos_bound. lia.
Qed.

(** ** More on tokens *)

Lemma break_token_nodelim delim s :
  forallb (fun c => negb (is_delim delim c)) s = true ->
  break_token delim s = (s, []).
Proof.
  induction s as [|c s IH]; [reflexivity|].
  simpl. intros [Hc Hs]%andb_prop. apply negb_true_iff in Hc.
  now rewrite Hc, IH.
Qed.

Lemma strtok_r_single delim s :
  s <> [] ->
  forallb (fun c => negb (is_delim delim c)) s = true ->
  strtok_r s delim = Some (s, []).
Proof.
  intros Hne Hs. unfold strtok_r. destruct s as [|c s]; [contradiction|].
  pose proof Hs as Hs'. simpl in Hs'. apply andb_prop in Hs' as [Hc _].
  apply negb_true_iff in Hc. cbn [skip_delims]. rewrite Hc.
  now rewrite break_token_nodelim.
Qed.

Lemma split_fields_no_delim delim s :
  forallb (forallb (fun c => negb (is_delim delim c))) (split_fields delim s)
  = true.
Proof.
  induction s as [|c s IH]; [reflexivity|].
  cbn [split_fields]. destruct (is_delim delim c) eqn:E; [exact IH|].
  destruct (split_fields delim s) as [|f fs]; simpl in *; now rewrite E.
Qed.

Lemma split_fields_forallb (P : ascii -> bool) delim s :
  forallb P s = true ->
  forallb (forallb P) (split_fields delim s) = true.
Proof.
  induction s as [|c s IH]; [reflexivity|].
  simpl forallb at 1. intros [Hc Hs]%andb_prop. cbn [split_fields].
  specialize (IH Hs).
  destruct (is_delim delim c); [exact IH|].
  destruct (split_fields delim s) as [|f fs]; simpl in *; now rewrite Hc.
Qed.

Lemma forallb_filter_nonempty (Q : cstring -> bool) l :
  forallb Q l = true -> forallb Q (filter nonempty l) = true.
Proof.
  induction l as [|x l IH]; [reflexivity|].
  simpl. intros [Hx Hl]%andb_prop.
  destruct (nonempty x); simpl; rewrite ?Hx; auto.
Qed.

(** The tokens of a string are not empty, hold no delimiter, and hold
    only bytes of the string. *)
Lemma tokens_nonempty delim s : forallb nonempty (tokens delim s) = true.
Proof.
  unfold tokens. induction (split_fields delim s) as [|x l IH];
    [reflexivity|].
  simpl. destruct (nonempty x) eqn:E; simpl; now rewrite ?E.
Qed.

Lemma tokens_no_delim delim s :
  forallb (forallb (fun c => negb (is_delim delim c))) (tokens delim s)
  = true.
Proof. apply forallb_filter_nonempty, split_fields_no_delim. Qed.

Lemma tokens_forallb (P : ascii -> bool) delim s :
  forallb P s = true -> forallb (forallb P) (tokens delim s) = true.
Proof. intros H. now apply forallb_filter_nonempty, split_fields_forallb. Qed.

Lemma split_fields_app_delim delim s c :
  is_delim delim c = true ->
  split_fields delim (s ++ [c]) = split_fields delim s ++ [[]].
Proof.
  intros Hc. induction s as [|a s IH].
  - simpl. now rewrite Hc.
  - rewrite <- app_comm_cons. cbn [split_fields]. rewrite IH.
    destruct (is_delim delim a); [reflexivity|].
    pose proof (split_fields_not_nil delim s) as Hne.
    now destruct (split_fields delim s).
Qed.

(** A trailing delimiter adds no token. *)
Lemma tokens_app_delim delim s c :
  is_delim delim c = true -> tokens delim (s ++ [c]) = tokens delim s.
Proof.
  intros Hc. unfold tokens. rewrite split_fields_app_delim by exact Hc.
  rewrite filter_app. simpl. apply app_nil_r.
Qed.

Lemma is_delim_char c x : is_delim [c] x = Ascii.eqb x c.
Proof. unfold is_delim. simpl. apply orb_false_r. Qed.

Lemma split_fields_token c t :
  forallb (other_than c) t = true -> split_fields [c] t = [t].
Proof.
  induction t as [|x t IH]; [reflexivity|].
  simpl forallb. unfold other_than at 1. intros [Hx Ht]%andb_prop.
  apply negb_true_iff in Hx. cbn [split_fields].
  now rewrite is_delim_char, Hx, IH.
Qed.

Lemma split_fields_token_delim c t s :
  forallb (other_than c) t = true ->
  split_fields [c] (t ++ [c] ++ s) = t :: split_fields [c] s.
Proof.
  induction t as [|x t IH].
  - intros _. cbn [app split_fields]. now rewrite is_delim_char, Ascii.eqb_refl.
  - simpl forallb. unfold other_than at 1. intros [Hx Ht]%andb_prop.
    apply negb_true_iff in Hx. rewrite <- app_comm_cons. cbn [split_fields].
    now rewrite is_delim_char, Hx, IH.
Qed.

(** Splitting at [c] what was joined with [c] gives the tokens back. *)
Lemma tokens_join_char c l :
  forallb (token_without c) l = true -> tokens [c] (join [c] l) = l.
Proof.
  induction l as [|x l IH]; [reflexivity|].
  simpl forallb. unfold token_without at 1.
  intros [[Hne Hx]%andb_prop Hl]%andb_prop.
  destruct l as [|y l].
  - unfold tokens. cbn [join]. rewrite split_fields_token by exact Hx.
    simpl. now rewrite Hne.
  - rewrite join_cons by discriminate. unfold tokens.
    rewrite split_fields_token_delim by exact Hx.
    cbn [filter]. rewrite Hne. f_equal. now apply IH.
Qed.

Lemma forallb_rev {A} (P : A -> bool) l :
  forallb P l = true -> forallb P (rev l) = true.
Proof.
  rewrite !forallb_forall. intros H x Hx. apply H. now apply in_rev.
Qed.

Lemma token_without_prefixed c field toks :
  forallb (other_than c) field = true ->
  forallb nonempty toks = true ->
  forallb (forallb (other_than c)) toks = true ->
  forallb (token_without c) (map (app field) toks) = true.
Proof.
  intros Hf. induction toks as [|t toks IH]; [reflexivity|].
  simpl. intros [Hne Hn]%andb_prop [Ht Hl]%andb_prop.
  rewrite IH by assumption. unfold token_without.
  rewrite forallb_app, Hf, Ht. now destruct field, t.
Qed.

(** ** More on ads_build_path *)

Lemma path_loop_reverse_nonzero sep field r1 r2 fuel :
  r1 <> 0 -> r2 <> 0 ->
  forall saveptr ret,
    path_loop fuel sep field r1 saveptr ret =
    path_loop fuel sep field r2 saveptr ret.
Proof.
  intros H1 H2. induction fuel as [|fuel IH]; intros saveptr ret;
    [reflexivity|].
  simpl. destruct (strtok_r saveptr sep) as [[p saveptr']|]; [|reflexivity].
  destruct (Z.eqb_spec r1 0); [contradiction|].
  destruct (Z.eqb_spec r2 0); [contradiction|].
  destruct (asprintf _); [apply IH|reflexivity].
Qed.

(** X3: [reverse] is a truth value: any two non-zero values give the same
    result, whatever the allocator does. *)
Theorem ads_build_path_reverse_nonzero realm sep field r1 r2 :
  r1 <> 0 -> r2 <> 0 ->
  ads_build_path realm sep field r1 = ads_build_path realm sep field r2.
Proof.
  intros H1 H2. unfold ads_build_path.
  destruct (SMB_STRDUP realm) as [[|c r]|]; try reflexivity.
  destruct (negb _); [reflexivity|]. unfold strlcpy.
  destruct (_ >=? _); [reflexivity|].
  destruct (strtok_r _ _) as [[p saveptr]|]; [|reflexivity].
  unfold strlcat. destruct (_ >=? _); [reflexivity|].
  now apply path_loop_reverse_nonzero.
Qed.

(** X1: a name without any separator gives one segment, the prefix and
    the name, and asprintf is not called. *)
Theorem ads_build_path_single_segment name sep field reverse :
  name <> [] ->
  forallb (fun c => negb (is_delim sep c)) name = true ->
  path_capacity sep field name <= INT_MAX ->
  ads_build_path (Some name) sep field reverse = Some (field ++ name).
Proof.
  intros Hne Hnd Hcap. unfold ads_build_path. rewrite strdup_ok.
  rewrite (strtok_r_single sep name Hne Hnd).
  destruct name as [|c r']; [contradiction|]. set (r := c :: r') in *.
  rewrite path_len_capacity by exact Hcap.
  pose proof (path_capacity_lower sep field r) as Hlow.
  pose proof (strlen_nonneg field) as Hlf.
  pose proof (strlen_nonneg r) as Hlr.
  rewrite malloc_ok by lia. cbn [negb]. cbv iota.
  rewrite to_size_t_small by (unfold INT_MAX in Hcap; lia).
  unfold strlcpy, strlcat.
  rewrite !firstn_all2 by (unfold strlen in *; lia).
  destruct (strlen field >=? _) eqn:G; [lia|].
  destruct (Z.min _ _ + _ >=? _) eqn:G2; [lia|].
  reflexivity.
Qed.

(** X2: the path depends on the name through its tokens only: two names
    with the same tokens, under the same or different separator sets, give
    the same path. *)
Theorem ads_build_path_same_tokens name1 sep1 name2 sep2 field reverse :
  name1 <> [] -> name2 <> [] ->
  tokens sep1 name1 = tokens sep2 name2 ->
  path_capacity sep1 field name1 <= INT_MAX ->
  path_capacity sep2 field name2 <= INT_MAX ->
  ads_build_path (Some name1) sep1 field reverse =
  ads_build_path (Some name2) sep2 field reverse.
Proof.
  intros H1 H2 Ht Hc1 Hc2.
  rewrite !ads_build_path_tokens by assumption. now rewrite Ht.
Qed.

(** X4: the length of a path that comes back: the bytes of the tokens,
    and for each token the prefix and one comma or the terminator. *)
Theorem ads_build_path_length name sep field reverse path :
  tokens sep name <> [] ->
  ads_build_path (Some name) sep field reverse = Some path ->
  strlen path + 1 =
  Z.of_nat (total_length (tokens sep name))
  + Z.of_nat (length (tokens sep name)) * (strlen field + 1).
Proof.
  intros Ht E.
  assert (name <> []) as Hne by (intros ->; now apply Ht).
  destruct (ads_build_path_complete name sep field reverse Hne) as [E'|E'];
    rewrite E' in E; [discriminate|].
  injection E as <-.
  destruct (tokens sep name) as [|t toks] eqn:Et; [contradiction|].
  rewrite expected_path_length by discriminate. lia.
Qed.

(** X5: a path built from a name and a prefix without commas can be
    taken apart again: its comma-separated segments are the prefixed
    tokens, in input order or reversed. *)
Theorem ads_build_path_segments name sep field reverse path :
  forallb (other_than ",") field = true ->
  forallb (other_than ",") name = true ->
  tokens sep name <> [] ->
  ads_build_path (Some name) sep field reverse = Some path ->
  tokens (cs ",") path =
  map (app field)
    (if reverse =? 0 then tokens sep name else rev (tokens sep name)).
Proof.
  intros Hf Hn Ht E.
  assert (name <> []) as Hne by (intros ->; now apply Ht).
  destruct (ads_build_path_complete name sep field reverse Hne) as [E'|E'];
    rewrite E' in E; [discriminate|].
  injection E as <-.
  destruct (tokens sep name) as [|t toks] eqn:Et; [contradiction|].
  rewrite <- Et in *. unfold expected_path, prefixed_path.
  change (cs ",") with [","%char]. apply tokens_join_char.
  pose proof (tokens_nonempty sep name) as Hne'.
  pose proof (tokens_forallb (other_than ",") sep name Hn) as Hc.
  apply token_without_prefixed; trivial;
    destruct (reverse =? 0); trivial; now apply forallb_rev.
Qed.

(** ** More on lower-casing *)

Lemma tolower_upper c :
  is_upper c = true -> nat_of_ascii (tolower c) = (nat_of_ascii c + 32)%nat.
Proof.
  intros H. unfold tolower. rewrite H. apply nat_ascii_embedding.
  unfold is_upper in H. apply andb_prop in H as [_ H].
  apply Nat.leb_le in H. lia.
Qed.

Lemma tolower_not_upper c : is_upper (tolower c) = false.
Proof.
  destruct (is_upper c) eqn:E.
  - unfold is_upper at 1. rewrite (tolower_upper c E).
    unfold is_upper in E. apply andb_prop in E as [E _].
    apply Nat.leb_le in E. apply andb_false_iff. right.
    apply Nat.leb_gt. lia.
  - unfold tolower. now rewrite E.
Qed.

Lemma tolower_idempotent c : tolower (tolower c) = tolower c.
Proof. unfold tolower at 1. now rewrite tolower_not_upper. Qed.

Lemma tolower_ascii7 c : is_ascii7 c = true -> is_ascii7 (tolower c) = true.
Proof.
  intros H. destruct (is_upper c) eqn:E.
  - unfold is_ascii7. rewrite (tolower_upper c E).
    unfold is_upper in E. apply andb_prop in E as [_ E].
    apply Nat.leb_le in E. apply Nat.ltb_lt. lia.
  - unfold tolower. now rewrite E.
Qed.

Lemma tolower_alnum c :
  is_alnum c = true -> is_lower_alnum (tolower c) = true.
Proof.
  unfold is_alnum. destruct (is_upper c) eqn:E.
  - intros _. unfold is_lower_alnum. rewrite (tolower_upper c E).
    unfold is_upper in E. apply andb_prop in E as [E1 E2].
    apply Nat.leb_le in E1, E2. apply orb_true_iff. left.
    apply andb_true_iff. split; apply Nat.leb_le; lia.
  - simpl. intros H. unfold tolower. now rewrite E.
Qed.

Lemma is_alnum_ascii7 c : is_alnum c = true -> is_ascii7 c = true.
Proof.
  unfold is_alnum. intros [H|H]%orb_prop.
  - unfold is_upper in H. apply andb_prop in H as [_ H].
    apply Nat.leb_le in H. apply Nat.ltb_lt. lia.
  - exact (proj1 (is_lower_alnum_facts c H)).
Qed.

Lemma lowercase_idempotent s : lowercase (lowercase s) = lowercase s.
Proof.
  unfold lowercase. rewrite map_map. apply map_ext, tolower_idempotent.
Qed.

Lemma lowercase_ascii7 s :
  forallb is_ascii7 s = true -> forallb is_ascii7 (lowercase s) = true.
Proof.
  induction s as [|c s IH]; [reflexivity|].
  simpl. intros [Hc Hs]%andb_prop. now rewrite tolower_ascii7, IH.
Qed.

Lemma lowercase_app s t : lowercase (s ++ t) = lowercase s ++ lowercase t.
Proof. apply map_app. Qed.

Lemma lowercase_join d l :
  lowercase (join d l) = join (lowercase d) (map lowercase l).
Proof.
  induction l as [|x l IH]; [reflexivity|].
  destruct l as [|y l]; [reflexivity|].
  cbn [map]. rewrite !join_cons by discriminate.
  now rewrite !lowercase_app, IH.
Qed.

Lemma lowercase_prefixed_path toks :
  lowercase (prefixed_path (cs "dc=") toks) =
  prefixed_path (cs "dc=") (map lowercase toks).
Proof.
  unfold prefixed_path. rewrite lowercase_join, !map_map.
  reflexivity.
Qed.

Lemma lowercase_tokens_alnum toks :
  forallb (forallb is_alnum) toks = true ->
  forallb (forallb is_lower_alnum) (map lowercase toks) = true.
Proof.
  induction toks as [|t toks IH]; [reflexivity|].
  simpl. intros [Ht Hl]%andb_prop. rewrite IH by exact Hl.
  rewrite andb_true_r. clear IH Hl.
  induction t as [|c t IHt]; [reflexivity|].
  simpl in *. apply andb_prop in Ht as [Hc Ht].
  now rewrite tolower_alnum, IHt.
Qed.

Lemma lowercase_labels l :
  forallb (forallb is_lower_alnum) l = true -> map lowercase l = l.
Proof.
  induction l as [|x l IH]; [reflexivity|].
  simpl. intros [Hx Hl]%andb_prop. rewrite IH by exact Hl. f_equal.
  apply lowercase_fixed.
  apply (forallb_weaken is_lower_alnum); [|exact Hx].
  intros c Hc. now rewrite (proj1 (proj2 (is_lower_alnum_facts c Hc))).
Qed.

(** ** More on ads_build_domain *)

(** ads_build_domain on the DN of labels made of letters and digits: the
    lower-cased labels, joined with periods. *)
Lemma ads_build_domain_prefixed_path toks :
  forallb (forallb is_alnum) toks = true ->
  ads_build_domain (Some (prefixed_path (cs "dc=") toks)) =
  Some (join (cs ".") (map lowercase toks)).
Proof.
  intros Hal. rewrite ads_build_domain_eq, strlower_m_ascii.
  - cbn [option_map]. rewrite lowercase_prefixed_path.
    pose proof (lowercase_tokens_alnum toks Hal) as Hlow.
    rewrite remove_dc_prefixed_path, commas_to_periods_join; trivial.
    + apply (forallb_tokens_weaken is_lower_alnum); [|exact Hlow].
      intros c Hc. unfold other_than.
      now rewrite (proj2 (proj2 (proj2 (is_lower_alnum_facts c Hc)))).
    + apply (forallb_tokens_weaken is_lower_alnum); [|exact Hlow].
      intros c Hc. unfold other_than.
      now rewrite (proj1 (proj2 (proj2 (is_lower_alnum_facts c Hc)))).
  - apply forallb_join; [reflexivity|].
    apply forallb_prefixed; [reflexivity|].
    apply (forallb_tokens_weaken is_alnum); [|exact Hal].
    apply is_alnum_ascii7.
Qed.

Lemma forallb_tokens_both (P Q R : ascii -> bool) l :
  (forall c, P c = true -> Q c = true -> R c = true) ->
  forallb (forallb P) l = true ->
  forallb (forallb Q) l = true ->
  forallb (forallb R) l = true.
Proof.
  intros H. induction l as [|t l IH]; [reflexivity|].
  simpl. intros [Hp Hlp]%andb_prop [Hq Hlq]%andb_prop.
  rewrite IH by assumption. rewrite andb_true_r. clear IH Hlp Hlq.
  induction t as [|c t IHt]; [reflexivity|].
  simpl in *. apply andb_prop in Hp as [Hc Hp].
  apply andb_prop in Hq as [Hc' Hq]. now rewrite (H c Hc Hc'), IHt.
Qed.

(** X7: the round trip on any realm written with letters of either case,
    digits and dots: ads_build_domain after ads_build_dn lower-cases the
    realm and drops leading, trailing and repeated dots. *)
Theorem ads_build_domain_build_dn_normal realm :
  forallb is_realm_char realm = true ->
  tokens (cs ".") realm <> [] ->
  path_capacity (cs ".") (cs "dc=") realm <= INT_MAX ->
  ads_build_domain (ads_build_dn (Some realm)) =
  Some (lowercase (join (cs ".") (tokens (cs ".") realm))) /\
  (forallb nonempty (split_fields (cs ".") realm) = true ->
   ads_build_domain (ads_build_dn (Some realm)) = Some (lowercase realm)).
Proof.
  intros Hchars Hne Hcap.
  assert (ads_build_domain (ads_build_dn (Some realm)) =
          Some (lowercase (join (cs ".") (tokens (cs ".") realm)))) as E.
  { unfold ads_build_dn. rewrite ads_build_path_some_tokens by assumption.
    unfold expected_path. cbn [Z.eqb].
    rewrite ads_build_domain_prefixed_path.
    - rewrite lowercase_join. reflexivity.
    - apply (forallb_tokens_both is_realm_char
               (fun c => negb (is_delim (cs ".") c))).
      + intros c Hc Hd. unfold is_realm_char in Hc.
        rewrite is_delim_dot in Hd. apply negb_true_iff in Hd.
        now rewrite Hd, orb_false_r in Hc.
      + now apply tokens_forallb.
      + apply tokens_no_delim. }
  split; [exact E|]. intros Hfields. rewrite E. unfold tokens.
  assert (filter nonempty (split_fields (cs ".") realm) =
          split_fields (cs ".") realm) as ->.
  { clear -Hfields. induction (split_fields (cs ".") realm) as [|x l IH];
      [reflexivity|].
    simpl in *. apply andb_prop in Hfields as [Hx Hl].
    now rewrite Hx, IH. }
  now rewrite join_split_fields_dot.
Qed.

Lemma realm_label_token l :
  forallb realm_label l = true -> forallb (token_without ".") l = true.
Proof.
  induction l as [|x l IH]; [reflexivity|].
  simpl. unfold realm_label at 1, token_without at 1.
  intros [[Hne Hx]%andb_prop Hl]%andb_prop.
  rewrite Hne, IH by exact Hl. rewrite andb_true_r. simpl.
  apply (forallb_weaken is_lower_alnum); [|exact Hx].
  intros c Hc. unfold other_than. apply negb_true_iff.
  destruct (Ascii.eqb_spec c ".") as [->|]; [discriminate Hc|reflexivity].
Qed.

Lemma realm_label_alnum l :
  forallb realm_label l = true -> forallb (forallb is_alnum) l = true.
Proof.
  intros H. apply (forallb_tokens_weaken is_lower_alnum).
  - intros c Hc. unfold is_alnum. now rewrite Hc, orb_true_r.
  - now apply realm_labels_alnum.
Qed.

(** X8: the round trip the other way: on the DN of lower-case labels,
    ads_build_dn after ads_build_domain gives the DN back. *)
Theorem ads_build_dn_build_domain labels :
  labels <> [] ->
  forallb realm_label labels = true ->
  path_capacity (cs ".") (cs "dc=") (join (cs ".") labels) <= INT_MAX ->
  ads_build_dn (ads_build_domain (Some (prefixed_path (cs "dc=") labels))) =
  Some (prefixed_path (cs "dc=") labels).
Proof.
  intros Hne Hlab Hcap.
  rewrite ads_build_domain_prefixed_path by now apply realm_label_alnum.
  rewrite lowercase_labels by now apply realm_labels_alnum.
  assert (tokens (cs ".") (join (cs ".") labels) = labels) as Ht
    by (apply (tokens_join_char "."), realm_label_token, Hlab).
  unfold ads_build_dn. rewrite ads_build_path_some_tokens; trivial.
  - unfold expected_path. cbn [Z.eqb]. now rewrite Ht.
  - now rewrite Ht.
Qed.

(** X9: ads_build_dn maps different realms of the shape
    [[a-z0-9]+(\.[a-z0-9]+)*] to different DNs. *)
Theorem ads_build_dn_injective realm1 realm2 :
  realm_shape realm1 = true -> realm_shape realm2 = true ->
  path_capacity (cs ".") (cs "dc=") realm1 <= INT_MAX ->
  path_capacity (cs ".") (cs "dc=") realm2 <= INT_MAX ->
  ads_build_dn (Some realm1) = ads_build_dn (Some realm2) ->
  realm1 = realm2.
Proof.
  intros S1 S2 C1 C2. unfold ads_build_dn.
  pose proof (realm_shape_tokens _ S1) as T1.
  pose proof (realm_shape_tokens _ S2) as T2.
  rewrite !ads_build_path_some_tokens; trivial;
    try (rewrite ?T1, ?T2; apply split_fields_not_nil).
  unfold expected_path. cbn [Z.eqb]. rewrite T1, T2. intros [= E].
  apply (f_equal remove_dc) in E.
  assert (forall r, realm_shape r = true ->
            forallb (forallb (other_than "="))
              (split_fields (cs ".") r) = true /\
            forallb (forallb (other_than ","))
              (split_fields (cs ".") r) = true) as Hno.
  { intros r Sr. pose proof (realm_labels_alnum _ Sr) as Hal.
    split; apply (forallb_tokens_weaken is_lower_alnum); trivial;
      intros c Hc; unfold other_than.
    - now rewrite (proj1 (proj2 (proj2 (is_lower_alnum_facts c Hc)))).
    - now rewrite (proj2 (proj2 (proj2 (is_lower_alnum_facts c Hc)))). }
  destruct (Hno _ S1) as [E1 K1]. destruct (Hno _ S2) as [E2 K2].
  rewrite !remove_dc_prefixed_path in E by assumption.
  apply (f_equal commas_to_periods) in E.
  rewrite !commas_to_periods_join in E by assumption.
  now rewrite !join_split_fields_dot in E.
Qed.

Lemma remove_dc_length s : (length (remove_dc s) <= length s)%nat.
Proof.
  remember (length s) as n eqn:Hn. revert s Hn.
  induction n as [n IH] using lt_wf_ind. intros s Hn.
  destruct s as [|c s]; [simpl; lia|].
  rewrite remove_dc_cons.
  destruct (strip_prefix (cs "dc=") (c :: s)) as [after|] eqn:E.
  - apply strip_prefix_app in E.
    assert (length after < n)%nat as Hlt
      by (rewrite Hn, E, length_app; simpl; lia).
    pose proof (IH _ Hlt after eq_refl). lia.
  - simpl in Hn. simpl.
    assert (length s < n)%nat as Hlt by lia.
    pose proof (IH _ Hlt s eq_refl). lia.
Qed.

Lemma commas_to_periods_no_comma s :
  forallb (other_than ",") (commas_to_periods s) = true.
Proof.
  induction s as [|c s IH]; [reflexivity|].
  simpl. rewrite IH, andb_true_r. unfold other_than.
  destruct (Ascii.eqb_spec c ",") as [->|Hc]; [reflexivity|].
  apply negb_true_iff. now apply Ascii.eqb_neq.
Qed.

(** X10: the result of ads_build_domain is never longer than the string
    it lower-cased, so never longer than a 7-bit input. *)
Theorem ads_build_domain_not_longer dn :
  (forall domain,
      ads_build_domain (Some dn) = Some domain ->
      exists low, strlower_m dn = Some low /\ strlen domain <= strlen low) /\
  (forallb is_ascii7 dn = true ->
   exists domain,
     ads_build_domain (Some dn) = Some domain /\
     strlen domain <= strlen dn).
Proof.
  assert (forall low,
             strlen (commas_to_periods (remove_dc low)) <= strlen low) as H.
  { intros low. unfold strlen, commas_to_periods. rewrite length_map.
    pose proof (remove_dc_length low). lia. }
  split.
  - intros domain. rewrite ads_build_domain_eq.
    destruct (strlower_m dn) as [low|]; [|discriminate].
    intros [= <-]. exists low. split; [reflexivity|apply H].
  - intros H7. rewrite ads_build_domain_eq, strlower_m_ascii by exact H7.
    eexists. split; [reflexivity|].
    etransitivity; [apply H|]. unfold strlen, lowercase.
    rewrite length_map. lia.
Qed.

(** X11: no comma is left in the result of ads_build_domain, whatever
    the allocator and the lower-casing do. *)
Theorem ads_build_domain_no_comma dn domain :
  ads_build_domain dn = Some domain ->
  forallb (other_than ",") domain = true.
Proof.
  unfold ads_build_domain.
  destruct (SMB_STRDUP dn) as [d|]; [|discriminate].
  destruct (strlower_m d) as [low|]; [|discriminate].
  rewrite all_string_sub_commas. intros [= <-].
  apply commas_to_periods_no_comma.
Qed.

(** X12: on 7-bit input ads_build_domain does not tell the case of
    letters apart: a DN and its lower-cased form give the same result. *)
Theorem ads_build_domain_case_insensitive dn :
  forallb is_ascii7 dn = true ->
  ads_build_domain (Some (lowercase dn)) = ads_build_domain (Some dn).
Proof.
  intros H. rewrite !ads_build_domain_eq.
  rewrite !strlower_m_ascii by (trivial; now apply lowercase_ascii7).
  now rewrite lowercase_idempotent.
Qed.

(** ** More on the context *)

Lemma set_auth_flags_twice v1 v2 a :
  set_auth_flags v2 (set_auth_flags v1 a) = set_auth_flags v2 a.
Proof. reflexivity. Qed.

Lemma set_sasl_wrap_flags_live p a flags (m : mem) :
  m !! p = Some a ->
  ads_set_sasl_wrap_flags (Some p) flags m =
  Some (true,
        <[p := set_auth_flags
                 (Z.lor flags (Z.land (auth_flags (auth a)) kept_bits)) a]> m).
Proof.
  intros Hp. unfold ads_set_sasl_wrap_flags.
  rewrite (bind_some _ _ _ _ _ (load_live _ _ _ Hp)).
  rewrite (bind_some _ _ _ _ _ (store_live _ _ _ _ Hp)).
  reflexivity.
Qed.

Lemma set_sasl_wrap_flags_dead p flags (m : mem) :
  m !! p = None -> ads_set_sasl_wrap_flags (Some p) flags m = None.
Proof.
  intros Hp. unfold ads_set_sasl_wrap_flags, bind, load. now rewrite Hp.
Qed.

(** Two rounds of clearing and setting, on the level of the bits. *)
Lemma wrap_flags_twice old f1 f2 keep :
  Z.lor f2 (Z.land (Z.lor f1 (Z.land old keep)) keep) =
  Z.lor (Z.lor f2 (Z.land f1 keep)) (Z.land old keep).
Proof.
  apply Z.bits_inj'. intros i _.
  rewrite !Z.lor_spec, !Z.land_spec, !Z.lor_spec, !Z.land_spec.
  destruct (Z.testbit f1 i), (Z.testbit f2 i), (Z.testbit old i),
    (Z.testbit keep i); reflexivity.
Qed.

Lemma wrap_flags_absorb f keep : Z.lor f (Z.land f keep) = f.
Proof.
  apply Z.bits_inj'. intros i _. rewrite Z.lor_spec, Z.land_spec.
  destruct (Z.testbit f i), (Z.testbit keep i); reflexivity.
Qed.

(** X14: two calls of ads_set_sasl_wrap_flags are one call: the second
    flags, and what the first flags hold outside the signing and sealing
    bits.  Calling twice with the same flags is calling once. *)
Theorem ads_set_sasl_wrap_flags_twice ads f1 f2 (m : mem) :
  (ads_set_sasl_wrap_flags ads f1 ;;; ads_set_sasl_wrap_flags ads f2) m =
  ads_set_sasl_wrap_flags ads (Z.lor f2 (Z.land f1 kept_bits)) m /\
  (ads_set_sasl_wrap_flags ads f1 ;;; ads_set_sasl_wrap_flags ads f1) m =
  ads_set_sasl_wrap_flags ads f1 m.
Proof.
  assert (forall g1 g2,
             (ads_set_sasl_wrap_flags ads g1 ;;;
              ads_set_sasl_wrap_flags ads g2) m =
             ads_set_sasl_wrap_flags ads (Z.lor g2 (Z.land g1 kept_bits)) m)
    as H.
  { intros g1 g2. destruct ads as [p|]; [|reflexivity].
    destruct (m !! p) as [a|] eqn:Hp.
    - unfold bind at 1. rewrite (set_sasl_wrap_flags_live p a g1 m Hp).
      rewrite (set_sasl_wrap_flags_live p _ g2 _ (lookup_insert_eq _ _ _)).
      rewrite (set_sasl_wrap_flags_live p a _ m Hp).
      rewrite insert_insert_eq, set_auth_flags_twice.
      cbn [auth auth_flags set_auth_flags set_auth].
      now rewrite wrap_flags_twice.
    - unfold bind at 1.
      now rewrite !set_sasl_wrap_flags_dead by exact Hp. }
  split; [apply H|]. rewrite H. now rewrite wrap_flags_absorb.
Qed.

Lemma init_wrap_flags_kept sasl_state :
  Z.land (to_unsigned (init_wrap_flags sasl_state)) kept_bits =
  Z.land (to_unsigned policy_base) kept_bits.
Proof.
  rewrite init_wrap_flags_eq. apply Z.bits_inj'. intros i Hi.
  rewrite !Z.land_spec. unfold kept_bits.
  destruct (Z.lt_ge_cases i 32) as [Hlt|Hge].
  - rewrite !to_unsigned_testbit by lia.
    rewrite Z.lor_spec, Z.lnot_spec by lia. unfold wrap_mask.
    rewrite Z.lor_spec.
    destruct sasl_state; simpl sasl_state_bits;
      rewrite ?Z.bits_0;
      destruct (Z.testbit policy_base i),
        (Z.testbit ADS_AUTH_SASL_SIGN i),
        (Z.testbit ADS_AUTH_SASL_SEAL i); reflexivity.
  - rewrite (to_unsigned_testbit_high (Z.lnot _)) by lia.
    now rewrite !andb_false_r.
Qed.

(** X15: the first ads_set_sasl_wrap_flags after ads_init wipes out the
    SASL state given to ads_init: the context is the same whichever state
    it was created with. *)
Theorem ads_init_state_overridden realm workgroup ldap_server s1 s2 flags
    (m : mem) :
  (ads <- ads_init realm workgroup ldap_server s1 ;;
   ads_set_sasl_wrap_flags (Some ads) flags ;;; ret ads) m =
  (ads <- ads_init realm workgroup ldap_server s2 ;;
   ads_set_sasl_wrap_flags (Some ads) flags ;;; ret ads) m.
Proof.
  destruct (ads_init_eq realm workgroup ldap_server s1 m) as [_ H1].
  destruct (ads_init_eq realm workgroup ldap_server s2 m) as [_ H2].
  unfold bind. rewrite H1, H2.
  rewrite !(set_sasl_wrap_flags_live _ _ _ _ (lookup_insert_eq _ _ _)).
  rewrite !insert_insert_eq.
  cbn [auth auth_flags set_ldap_page_size set_config set_auth_flags
       set_auth set_is_mine set_server config server is_mine].
  now rewrite !init_wrap_flags_kept.
Qed.

(** X16: the flags member stays an [unsigned] value: ads_init stores
    one, and ads_set_sasl_wrap_flags keeps it one when it is given one. *)
Theorem ads_flags_unsigned :
  (forall realm workgroup ldap_server sasl_state (m m' : mem) p,
      ads_init realm workgroup ldap_server sasl_state m = Some (p, m') ->
      exists a, m' !! p = Some a /\ flags_unsigned a) /\
  (forall p a flags (m m' : mem) b,
      m !! p = Some a ->
      flags_unsigned a ->
      0 <= flags < 4294967296 ->
      ads_set_sasl_wrap_flags (Some p) flags m = Some (b, m') ->
      exists a', m' !! p = Some a' /\ flags_unsigned a').
Proof.
  split.
  - intros realm workgroup ldap_server sasl_state m m' p.
    destruct (ads_init_eq realm workgroup ldap_server sasl_state m)
      as [_ Hinit].
    rewrite Hinit. intros [= <- <-]. eexists.
    split; [apply lookup_insert_eq|].
    unfold flags_unsigned.
    cbn [auth auth_flags set_ldap_page_size set_config set_auth_flags
         set_auth].
    unfold to_unsigned. apply Z.mod_pos_bound. lia.
  - intros p a flags m m' b Hp Ha Hf.
    rewrite (set_sasl_wrap_flags_live p a flags m Hp). intros [= <- <-].
    eexists. split; [apply lookup_insert_eq|].
    unfold flags_unsigned. cbn [auth auth_flags set_auth_flags set_auth].
    now apply set_flags_unsigned.
Qed.

(** ads_set_sasl_wrap_flags writes the flags member and nothing
    else: the other members of the context and every other object stay
    as they were. *)
Lemma ads_set_sasl_wrap_flags_frame p a flags (m : mem) :
  m !! p = Some a ->
  exists a' m',
    ads_set_sasl_wrap_flags (Some p) flags m = Some (true, m') /\
    m' !! p = Some a' /\
    is_mine a' = is_mine a /\ server a' = server a /\
    config a' = config a /\
    auth_realm (auth a') = auth_realm (auth a) /\
    auth_password (auth a') = auth_password (auth a) /\
    auth_user_name (auth a') = auth_user_name (auth a) /\
    auth_kdc_server (auth a') = auth_kdc_server (auth a) /\
    auth_ccache_name (auth a') = auth_ccache_name (auth a) /\
    (forall q, q <> p -> m' !! q = m !! q).
Proof.
  intros Hp. eexists _, _.
  split; [apply (set_sasl_wrap_flags_live p a flags m Hp)|].
  split; [apply lookup_insert_eq|].
  repeat (split; [reflexivity|]).
  intros q Hq. now apply lookup_insert_ne.
Qed.

(** ads_destroy touches the context it is given and no other
    object. *)
Lemma ads_destroy_frame p a (m m' : mem) r :
  m !! p = Some a ->
  ads_destroy (Some (Some p)) m = Some (r, m') ->
  m' !! p = (if is_mine a then None else Some ZERO_STRUCT) /\
  (forall q, q <> p -> m' !! q = m !! q).
Proof.
  intros Hp. rewrite (ads_destroy_live p a m Hp).
  destruct (is_mine a); intros [= <- <-].
  - split; [apply lookup_delete_eq|].
    intros q Hq. now apply lookup_delete_ne.
  - split; [apply lookup_insert_eq|].
    intros q Hq. now apply lookup_insert_ne.
Qed.

(** X17: the path of a non-empty name starts with the prefix, so with a
    non-empty prefix it is never the empty string. *)
Theorem ads_build_path_starts_with_prefix name sep field reverse path :
  name <> [] ->
  ads_build_path (Some name) sep field reverse = Some path ->
  (exists rest, path = field ++ rest) /\ (field <> [] -> path <> []).
Proof.
  intros Hne E.
  assert (exists rest, path = field ++ rest) as [rest ->].
  { destruct (ads_build_path_complete name sep field reverse Hne)
      as [E'|E']; rewrite E' in E; [discriminate|].
    injection E as <-.
    destruct (tokens sep name) as [|t toks] eqn:Et.
    - exists []. now rewrite app_nil_r.
    - unfold expected_path, prefixed_path.
      assert (forall l : list cstring,
                 l <> [] ->
                 exists rest, join (cs ",") (map (app field) l)
                              = field ++ rest) as H.
      { intros [|x l] Hl; [contradiction|]. cbn [map].
        rewrite join_head_app. eauto. }
      apply H. destruct (reverse =? 0); [discriminate|].
      simpl. now destruct (rev toks). }
  split; [eauto|]. intros Hf. now destruct field.
Qed.

End Ads.

(** ** The model on concrete input *)

Example strtok_r_first :
  strtok_r (cs "..ad.example") (cs ".") = Some (cs "ad", cs "example").
Proof. reflexivity. Qed.

Example strtok_r_last : strtok_r (cs "example") (cs ".") = Some (cs "example", []).
Proof. reflexivity. Qed.

Example strtok_r_none : strtok_r (cs "...") (cs ".") = None.
Proof. reflexivity. Qed.

Example tokens_skip_empty :
  tokens (cs ".") (cs "..a..b.c..") = [cs "a"; cs "b"; cs "c"].
Proof. reflexivity. Qed.

Example ads_build_path_dn :
  ads_build_path strdup_ideal malloc_ideal asprintf_ideal
    (Some (cs "example.com")) (cs ".") (cs "dc=") 0 =
  Some (cs "dc=example,dc=com").
Proof. reflexivity. Qed.

Example ads_build_path_reversed :
  ads_build_path strdup_ideal malloc_ideal asprintf_ideal
    (Some (cs "a.b.c")) (cs ".") (cs "dc=") 1 = Some (cs "dc=c,dc=b,dc=a").
Proof. reflexivity. Qed.

Example ads_build_path_two_separators :
  ads_build_path strdup_ideal malloc_ideal asprintf_ideal
    (Some (cs "Users/Sales,,Berlin")) (cs "/,") (cs "ou=") 1 =
  Some (cs "ou=Berlin,ou=Sales,ou=Users").
Proof. reflexivity. Qed.

Example ads_build_path_no_separator :
  ads_build_path strdup_ideal malloc_ideal asprintf_ideal
    (Some (cs "localdomain")) (cs ".") (cs "dc=") 0 =
  Some (cs "dc=localdomain").
Proof. reflexivity. Qed.

(** A failing allocation gives NULL. *)
Example ads_build_path_malloc_fails :
  ads_build_path strdup_ideal (fun _ => false) asprintf_ideal
    (Some (cs "example.com")) (cs ".") (cs "dc=") 0 = None.
Proof. reflexivity. Qed.

Example ads_build_path_asprintf_fails :
  ads_build_path strdup_ideal malloc_ideal (fun _ => None)
    (Some (cs "example.com")) (cs ".") (cs "dc=") 0 = None.
Proof. reflexivity. Qed.

Example ads_build_domain_dn :
  ads_build_domain strdup_ideal strlower_c_locale
    (Some (cs "DC=Example,dc=COM")) = Some (cs "example.com").
Proof. reflexivity. Qed.

(** The removal is one pass: a "dc=" that the removal itself puts
    together stays. *)
Example ads_build_domain_one_pass :
  ads_build_domain strdup_ideal strlower_c_locale (Some (cs "ddc=c=org")) =
  Some (cs "dc=org").
Proof. reflexivity. Qed.

(** ** Failing allocations *)

(** X6: when asprintf fails, a name with two tokens or more gives NULL,
    even though the first token was already copied. *)
Theorem ads_build_path_asprintf_null
    (SMB_STRDUP : option cstring -> option cstring) (SMB_MALLOC : Z -> bool)
    (asprintf : cstring -> option cstring) name sep field reverse :
  SMB_STRDUP (Some name) = Some name ->
  (forall s, asprintf s = None) ->
  (2 <= length (tokens sep name))%nat ->
  ads_build_path SMB_STRDUP SMB_MALLOC asprintf (Some name) sep field reverse
  = None.
Proof.
  intros Hdup Hfail Htok. unfold ads_build_path. rewrite Hdup.
  destruct name as [|c r']; [simpl in Htok; lia|]. set (r := c :: r') in *.
  destruct (negb _); [reflexivity|]. unfold strlcpy.
  destruct (_ >=? _); [reflexivity|].
  pose proof (strtok_r_tokens r sep) as Ht.
  destruct (strtok_r r sep) as [[p saveptr]|].
  - destruct Ht as (Ht & _ & _). rewrite Ht in Htok. simpl in Htok.
    unfold strlcat. destruct (_ >=? _); [reflexivity|].
    destruct saveptr as [|d saveptr']; [simpl in Htok; lia|].
    cbn [length path_loop].
    pose proof (strtok_r_tokens (d :: saveptr') sep) as Ht2.
    destruct (strtok_r (d :: saveptr') sep) as [[p2 saveptr2]|].
    + now rewrite Hfail.
    + rewrite Ht2 in Htok. simpl in Htok. lia.
  - rewrite Ht in Htok. simpl in Htok. lia.
Qed.

(** ** Instances *)


Lemma ads_build_path_reverse_witness :
  (forall s, strdup_ideal (Some s) = Some s) /\
  (forall size, 0 < size -> malloc_ideal size = true) /\
  (forall s, asprintf_ideal s = Some s) /\
  1 <> 0 /\
  tokens (cs ".") (cs "a.b.c") <> [] /\
  path_capacity (cs ".") (cs "dc=") (cs "a.b.c") <= INT_MAX /\
  ads_build_path strdup_ideal malloc_ideal asprintf_ideal
    (Some (cs "a.b.c")) (cs ".") (cs "dc=") 1 =
  Some (prefixed_path (cs "dc=") (rev (tokens (cs ".") (cs "a.b.c")))).
Proof.
  assert (forall s, strdup_ideal (Some s) = Some s) as H1 by reflexivity.
  assert (forall size, 0 < size -> malloc_ideal size = true) as H2
    by (intros size Hsize; apply Z.ltb_lt; exact Hsize).
  assert (forall s, asprintf_ideal s = Some s) as H3 by reflexivity.
  assert (1 <> 0) as H4 by lia.
  assert (tokens (cs ".") (cs "a.b.c") <> []) as H5
    by (vm_compute; discriminate).
  assert (path_capacity (cs ".") (cs "dc=") (cs "a.b.c") <= INT_MAX) as H6
    by (vm_compute; discriminate).
  refine (conj H1 (conj H2 (conj H3 (conj H4 (conj H5 (conj H6 _)))))).
  exact (proj1 (ads_build_path_reverse _ _ _ H1 H2 H3) _ _ _ _ H4 H5 H6).
Defined.

Lemma ads_build_path_only_separators_witness :
  (forall s, strdup_ideal (Some s) = Some s) /\
  (forall size, 0 < size -> malloc_ideal size = true) /\
  (forall s, asprintf_ideal s = Some s) /\
  cs ",;" <> [] /\
  forallb (is_delim (cs ";,")) (cs ",;") = true /\
  path_capacity (cs ";,") (cs "ou=") (cs ",;") <= INT_MAX /\
  ads_build_path strdup_ideal malloc_ideal asprintf_ideal
    (Some (cs ",;")) (cs ";,") (cs "ou=") 0 = Some (cs "ou=").
Proof.
  assert (forall s, strdup_ideal (Some s) = Some s) as H1 by reflexivity.
  assert (forall size, 0 < size -> malloc_ideal size = true) as H2
    by (intros size Hsize; apply Z.ltb_lt; exact Hsize).
  assert (forall s, asprintf_ideal s = Some s) as H3 by reflexivity.
  assert (cs ",;" <> []) as H4 by discriminate.
  assert (forallb (is_delim (cs ";,")) (cs ",;") = true) as H5
    by reflexivity.
  assert (path_capacity (cs ";,") (cs "ou=") (cs ",;") <= INT_MAX) as H6
    by (vm_compute; discriminate).
  refine (conj H1 (conj H2 (conj H3 (conj H4 (conj H5 (conj H6 _)))))).
  exact (proj1 (ads_build_path_only_separators _ _ _ H1 H2 H3)
           _ _ _ _ H4 H5 H6).
Defined.

Lemma ads_build_path_empty_name_witness :
  strdup_ideal (Some (cs "")) = Some [] /\
  ads_build_path strdup_ideal malloc_ideal asprintf_ideal
    (Some (cs "")) (cs ".") (cs "dc=") 0 = Some [].
Proof.
  assert (strdup_ideal (Some (cs "")) = Some []) as H1 by reflexivity.
  refine (conj H1 _).
  exact (proj1 (ads_build_path_empty_name strdup_ideal malloc_ideal
                  asprintf_ideal (cs ".") (cs "dc=") 0) H1).
Defined.

(** C9 as stated fails for a null name: line 35 hands the name to
    SMB_STRDUP before any test, so with a duplication that copies every
    string and does not answer NULL with NULL the result is neither NULL
    nor empty. *)
Lemma ads_build_path_empty_name_counterexample :
  (forall s, strdup_no_null_check (cs "x") (Some s) = Some s) /\
  ads_build_path (strdup_no_null_check (cs "x")) malloc_ideal asprintf_ideal
    None (cs ".") (cs "dc=") 0 = Some (cs "dc=x") /\
  ~ (forall SMB_STRDUP : option cstring -> option cstring,
        (forall s, SMB_STRDUP (Some s) = Some s) ->
        ads_build_path SMB_STRDUP malloc_ideal asprintf_ideal
          None (cs ".") (cs "dc=") 0 = None \/
        ads_build_path SMB_STRDUP malloc_ideal asprintf_ideal
          None (cs ".") (cs "dc=") 0 = Some []).
Proof.
  split; [reflexivity|]. split; [reflexivity|]. intros H.
  destruct (H (strdup_no_null_check (cs "x")) (fun s => eq_refl)) as [E|E];
    discriminate E.
Qed.

(** C4 as stated fails for a name without tokens: "." gives the prefix
    "dc=", four bytes with the terminator, against
    0 * (3 + 1) + 1 + 1 = 2.  It also fails where the arithmetic of line 47
    leaves the range of [int]: for 32767 dots and a prefix of 131071 bytes
    [len] is 32768, the test of line 55 is true and the result is NULL. *)
Lemma ads_build_path_capacity_counterexample :
  ads_build_path strdup_ideal malloc_ideal asprintf_ideal
    (Some (cs ".")) (cs ".") (cs "dc=") 0 = Some (cs "dc=") /\
  ~ (strlen (cs "dc=") + 1 <=
     Z.of_nat (length (tokens (cs ".") (cs "."))) * (strlen (cs "dc=") + 1)
     + strlen (cs ".") + 1) /\
  path_len (cs ".") long_prefix many_dots = 32768 /\
  (snd (strlcpy long_prefix (to_size_t 32768)) >=? to_size_t 32768) = true /\
  ads_build_path strdup_ideal malloc_ideal asprintf_ideal
    (Some many_dots) (cs ".") long_prefix 0 = None.
Proof.
  split; [reflexivity|]. split; [vm_compute; intros H; now apply H|].
  split; [vm_compute; reflexivity|].
  split; [vm_compute; reflexivity|].
  vm_compute; reflexivity.
Qed.

(** C6 as stated fails where the arithmetic of line 47 leaves the range
    of [int]: the name "a", 32767 dots, "b" has the two tokens "a" and
    "b", and with a prefix of 131071 bytes [len] is 32770, the test of
    line 55 is true and the result is NULL. *)
Lemma ads_build_path_reverse_counterexample :
  tokens (cs ".") (cs "a" ++ many_dots ++ cs "b") = [cs "a"; cs "b"] /\
  path_len (cs ".") long_prefix (cs "a" ++ many_dots ++ cs "b") = 32770 /\
  malloc_ideal 32770 = true /\
  ads_build_path strdup_ideal malloc_ideal asprintf_ideal
    (Some (cs "a" ++ many_dots ++ cs "b")) (cs ".") long_prefix 1 = None /\
  ads_build_path strdup_ideal malloc_ideal asprintf_ideal
    (Some (cs "a" ++ many_dots ++ cs "b")) (cs ".") long_prefix 1 <>
  Some (prefixed_path long_prefix
          (rev (tokens (cs ".") (cs "a" ++ many_dots ++ cs "b")))).
Proof.
  assert (ads_build_path strdup_ideal malloc_ideal asprintf_ideal
            (Some (cs "a" ++ many_dots ++ cs "b")) (cs ".") long_prefix 1
          = None) as E by (vm_compute; reflexivity).
  split; [vm_compute; reflexivity|].
  split; [vm_compute; reflexivity|].
  split; [reflexivity|].
  split; [exact E|].
  rewrite E. discriminate.
Qed.

(** C10 as stated fails where the arithmetic of line 47 leaves the range
    of [int]: for 32767 dots and a prefix of 131071 bytes [len] is 32768,
    the allocation succeeds, the test of line 55 is true and the result is
    NULL, not the prefix. *)
Lemma ads_build_path_only_separators_counterexample :
  many_dots <> [] /\
  forallb (is_delim (cs ".")) many_dots = true /\
  path_len (cs ".") long_prefix many_dots = 32768 /\
  malloc_ideal 32768 = true /\
  ads_build_path strdup_ideal malloc_ideal asprintf_ideal
    (Some many_dots) (cs ".") long_prefix 0 = None /\
  ads_build_path strdup_ideal malloc_ideal asprintf_ideal
    (Some many_dots) (cs ".") long_prefix 0 <> Some long_prefix.
Proof.
  assert (ads_build_path strdup_ideal malloc_ideal asprintf_ideal
            (Some many_dots) (cs ".") long_prefix 0 = None) as E
    by (vm_compute; reflexivity).
  split.
  { unfold many_dots.
    replace (Z.to_nat 32767) with (S (Z.to_nat 32766)) by lia.
    discriminate. }
  split; [vm_compute; reflexivity|].
  split; [vm_compute; reflexivity|].
  split; [reflexivity|].
  split; [exact E|].
  rewrite E. discriminate.
Qed.

Lemma ads_build_path_capacity_witness :
  (forall s, strdup_ideal (Some s) = Some s) /\
  (forall size, 0 < size -> malloc_ideal size = true) /\
  (forall s, asprintf_ideal s = Some s) /\
  cs "example.com" <> [] /\
  path_capacity (cs ".") (cs "dc=") (cs "example.com") <= INT_MAX /\
  exists path,
    ads_build_path strdup_ideal malloc_ideal asprintf_ideal
      (Some (cs "example.com")) (cs ".") (cs "dc=") 0 = Some path /\
    strlen path + 1 <= path_len (cs ".") (cs "dc=") (cs "example.com") /\
    (tokens (cs ".") (cs "example.com") <> [] ->
     strlen path + 1 <=
     Z.of_nat (length (tokens (cs ".") (cs "example.com")))
     * (strlen (cs "dc=") + 1) + strlen (cs "example.com") + 1).
Proof.
  assert (forall s, strdup_ideal (Some s) = Some s) as H1 by reflexivity.
  assert (forall size, 0 < size -> malloc_ideal size = true) as H2
    by (intros size Hsize; apply Z.ltb_lt; exact Hsize).
  assert (forall s, asprintf_ideal s = Some s) as H3 by reflexivity.
  assert (cs "example.com" <> []) as H4 by discriminate.
  assert (path_capacity (cs ".") (cs "dc=") (cs "example.com") <= INT_MAX)
    as H5 by (vm_compute; discriminate).
  refine (conj H1 (conj H2 (conj H3 (conj H4 (conj H5 _))))).
  exact (proj2 (proj2 (proj2
           (proj2 (ads_build_path_capacity _ _ _ H1 H2 H3
                     (cs "example.com") (cs ".") (cs "dc=") 0 H4) H5)))).
Defined.

Lemma strlower_c_locale_ascii s :
  forallb is_ascii7 s = true -> strlower_c_locale s = Some (lowercase s).
Proof. unfold strlower_c_locale. now intros ->. Qed.


(** C7 as stated fails where lower-casing fails: with a [strlower_m] that
    rejects the byte 0xE9 the DN "dc=caf\xE9,dc=com" gives NULL. *)
Lemma ads_build_domain_lowered_counterexample :
  ads_build_domain strdup_ideal strlower_c_locale
    (Some (cs "dc=caf" ++ [ascii_of_nat 233] ++ cs ",dc=com")) = None /\
  ~ (forall dn, exists domain,
        ads_build_domain strdup_ideal strlower_c_locale (Some dn) =
        Some domain).
Proof.
  split; [reflexivity|]. intros H.
  destruct (H (cs "dc=caf" ++ [ascii_of_nat 233] ++ cs ",dc=com"))
    as [domain E].
  discriminate E.
Qed.

Lemma ads_build_domain_lowered_witness :
  (forall s, strdup_ideal (Some s) = Some s) /\
  (forall s, forallb is_ascii7 s = true ->
             strlower_c_locale s = Some (lowercase s)) /\
  forallb is_ascii7 (cs "DC=Samba,DC=Org") = true /\
  ads_build_domain strdup_ideal strlower_c_locale
    (Some (cs "DC=Samba,DC=Org")) =
  Some (commas_to_periods (remove_dc (lowercase (cs "DC=Samba,DC=Org")))).
Proof.
  assert (forall s, strdup_ideal (Some s) = Some s) as H1 by reflexivity.
  assert (forallb is_ascii7 (cs "DC=Samba,DC=Org") = true) as H3
    by reflexivity.
  refine (conj H1 (conj strlower_c_locale_ascii (conj H3 _))).
  exact (proj1 (proj2 (proj2
           (ads_build_domain_lowered _ _ H1 strlower_c_locale_ascii
              (cs "DC=Samba,DC=Org")))) H3).
Defined.


Lemma ads_init_auth_flags_witness :
  -1 = -1 /\
  exists p a,
    ads_init strdup_ideal (-1) 1000 32 64
      (Some (cs "EXAMPLE.COM")) None None ADS_SASL_SEAL ∅ =
    Some (p, <[p := a]> ∅) /\
    auth_flags (auth a) = to_unsigned (sasl_state_bits 32 64 ADS_SASL_SEAL).
Proof.
  assert (-1 = -1) as H1 by reflexivity.
  refine (conj H1 _).
  destruct (ads_init_auth_flags strdup_ideal (-1) 1000 32 64
              (Some (cs "EXAMPLE.COM")) None None ADS_SASL_SEAL ∅)
    as (p & a & Hinit & _ & _ & _ & _ & _ & Herr & _).
  exists p, a. exact (conj Hinit (Herr H1)).
Defined.

(** C2 as stated fails for a context that does not own its storage:
    the caller's pointer still holds the address afterwards. *)
Lemma ads_destroy_owned_counterexample :
  ({[1%positive := borrowed_context]} : mem) !! 1%positive
  = Some borrowed_context /\
  ads_destroy (Some (Some 1%positive)) {[1%positive := borrowed_context]} =
  Some (Some (Some 1%positive), {[1%positive := ZERO_STRUCT]}) /\
  ~ (exists m' : mem,
        ads_destroy (Some (Some 1%positive))
          {[1%positive := borrowed_context]} = Some (Some None, m')).
Proof.
  assert (ads_destroy (Some (Some 1%positive))
            {[1%positive := borrowed_context]} =
          Some (Some (Some 1%positive), {[1%positive := ZERO_STRUCT]})) as H.
  { rewrite (ads_destroy_live _ borrowed_context) by reflexivity.
    cbn [is_mine borrowed_context set_auth_flags set_auth set_server].
    now rewrite insert_singleton. }
  split; [reflexivity|]. split; [exact H|].
  intros [m' E]. rewrite H in E. discriminate E.
Qed.

Lemma ads_destroy_owned_witness :
  ({[1%positive := owned_context]} : mem) !! 1%positive
  = Some owned_context /\
  is_mine owned_context = true /\
  ads_destroy (Some (Some 1%positive)) {[1%positive := owned_context]} =
  Some (Some None, delete 1%positive {[1%positive := owned_context]}) /\
  (r <- ads_destroy (Some (Some 1%positive)) ;; ads_destroy r)
    {[1%positive := owned_context]} =
  ads_destroy (Some (Some 1%positive)) {[1%positive := owned_context]}.
Proof.
  assert (({[1%positive := owned_context]} : mem) !! 1%positive
          = Some owned_context) as H1 by reflexivity.
  assert (is_mine owned_context = true) as H2 by reflexivity.
  refine (conj H1 (conj H2 _)).
  destruct (ads_destroy_owned 1%positive owned_context _ H1)
    as (Hown & _ & Htwice & _).
  exact (conj (Hown H2) Htwice).
Defined.

(** ** Instances of the further properties *)

Lemma ads_build_path_single_segment_witness :
  (forall s, strdup_ideal (Some s) = Some s) /\
  (forall size, 0 < size -> malloc_ideal size = true) /\
  cs "localdomain" <> [] /\
  forallb (fun c => negb (is_delim (cs ".") c)) (cs "localdomain") = true /\
  path_capacity (cs ".") (cs "dc=") (cs "localdomain") <= INT_MAX /\
  ads_build_path strdup_ideal malloc_ideal (fun _ => None)
    (Some (cs "localdomain")) (cs ".") (cs "dc=") 0 =
  Some (cs "dc=" ++ cs "localdomain").
Proof.
  assert (forall s, strdup_ideal (Some s) = Some s) as H1 by reflexivity.
  assert (forall size, 0 < size -> malloc_ideal size = true) as H2
    by (intros size Hsize; apply Z.ltb_lt; exact Hsize).
  assert (cs "localdomain" <> []) as H3 by discriminate.
  assert (forallb (fun c => negb (is_delim (cs ".") c)) (cs "localdomain")
          = true) as H4 by reflexivity.
  assert (path_capacity (cs ".") (cs "dc=") (cs "localdomain") <= INT_MAX)
    as H5 by (vm_compute; discriminate).
  refine (conj H1 (conj H2 (conj H3 (conj H4 (conj H5 _))))).
  exact (ads_build_path_single_segment strdup_ideal malloc_ideal
           (fun _ => None) H1 H2 _ _ _ 0 H3 H4 H5).
Defined.

Lemma ads_build_path_same_tokens_witness :
  (forall s, strdup_ideal (Some s) = Some s) /\
  (forall size, 0 < size -> malloc_ideal size = true) /\
  (forall s, asprintf_ideal s = Some s) /\
  cs "example.com." <> [] /\ cs "example/com" <> [] /\
  tokens (cs ".") (cs "example.com.") = tokens (cs "/") (cs "example/com") /\
  path_capacity (cs ".") (cs "dc=") (cs "example.com.") <= INT_MAX /\
  path_capacity (cs "/") (cs "dc=") (cs "example/com") <= INT_MAX /\
  ads_build_path strdup_ideal malloc_ideal asprintf_ideal
    (Some (cs "example.com.")) (cs ".") (cs "dc=") 0 =
  ads_build_path strdup_ideal malloc_ideal asprintf_ideal
    (Some (cs "example/com")) (cs "/") (cs "dc=") 0.
Proof.
  assert (forall s, strdup_ideal (Some s) = Some s) as H1 by reflexivity.
  assert (forall size, 0 < size -> malloc_ideal size = true) as H2
    by (intros size Hsize; apply Z.ltb_lt; exact Hsize).
  assert (forall s, asprintf_ideal s = Some s) as H3 by reflexivity.
  assert (cs "example.com." <> []) as H4 by discriminate.
  assert (cs "example/com" <> []) as H5 by discriminate.
  assert (tokens (cs ".") (cs "example.com.")
          = tokens (cs "/") (cs "example/com")) as H6 by reflexivity.
  assert (path_capacity (cs ".") (cs "dc=") (cs "example.com.") <= INT_MAX)
    as H7 by (vm_compute; discriminate).
  assert (path_capacity (cs "/") (cs "dc=") (cs "example/com") <= INT_MAX)
    as H8 by (vm_compute; discriminate).
  refine (conj H1 (conj H2 (conj H3 (conj H4 (conj H5 (conj H6
            (conj H7 (conj H8 _)))))))).
  exact (ads_build_path_same_tokens strdup_ideal malloc_ideal asprintf_ideal
           H1 H2 H3 _ _ _ _ _ 0 H4 H5 H6 H7 H8).
Defined.

Lemma ads_build_path_reverse_nonzero_witness :
  1 <> 0 /\ -1 <> 0 /\
  ads_build_path strdup_ideal malloc_ideal asprintf_ideal
    (Some (cs "a.b.c")) (cs ".") (cs "dc=") 1 =
  ads_build_path strdup_ideal malloc_ideal asprintf_ideal
    (Some (cs "a.b.c")) (cs ".") (cs "dc=") (-1).
Proof.
  assert (1 <> 0) as H1 by lia. assert (-1 <> 0) as H2 by lia.
  refine (conj H1 (conj H2 _)).
  exact (ads_build_path_reverse_nonzero strdup_ideal malloc_ideal
           asprintf_ideal (Some (cs "a.b.c")) (cs ".") (cs "dc=") 1 (-1)
           H1 H2).
Defined.

Lemma ads_build_path_length_witness :
  (forall s, strdup_ideal (Some s) = Some s) /\
  (forall s, asprintf_ideal s = Some s) /\
  tokens (cs ".") (cs "ad.example.com") <> [] /\
  ads_build_path strdup_ideal malloc_ideal asprintf_ideal
    (Some (cs "ad.example.com")) (cs ".") (cs "dc=") 0 =
  Some (cs "dc=ad,dc=example,dc=com") /\
  strlen (cs "dc=ad,dc=example,dc=com") + 1 =
  Z.of_nat (total_length (tokens (cs ".") (cs "ad.example.com")))
  + Z.of_nat (length (tokens (cs ".") (cs "ad.example.com")))
    * (strlen (cs "dc=") + 1).
Proof.
  assert (forall s, strdup_ideal (Some s) = Some s) as H1 by reflexivity.
  assert (forall s, asprintf_ideal s = Some s) as H3 by reflexivity.
  assert (tokens (cs ".") (cs "ad.example.com") <> []) as H4
    by (vm_compute; discriminate).
  assert (ads_build_path strdup_ideal malloc_ideal asprintf_ideal
            (Some (cs "ad.example.com")) (cs ".") (cs "dc=") 0 =
          Some (cs "dc=ad,dc=example,dc=com")) as H5 by reflexivity.
  refine (conj H1 (conj H3 (conj H4 (conj H5 _)))).
  exact (ads_build_path_length strdup_ideal malloc_ideal asprintf_ideal
           H1 H3 _ _ _ 0 _ H4 H5).
Defined.

Lemma ads_build_path_segments_witness :
  (forall s, strdup_ideal (Some s) = Some s) /\
  (forall s, asprintf_ideal s = Some s) /\
  forallb (other_than ",") (cs "dc=") = true /\
  forallb (other_than ",") (cs "ad.example.com") = true /\
  tokens (cs ".") (cs "ad.example.com") <> [] /\
  ads_build_path strdup_ideal malloc_ideal asprintf_ideal
    (Some (cs "ad.example.com")) (cs ".") (cs "dc=") 1 =
  Some (cs "dc=com,dc=example,dc=ad") /\
  tokens (cs ",") (cs "dc=com,dc=example,dc=ad") =
  map (app (cs "dc="))
    (if 1 =? 0 then tokens (cs ".") (cs "ad.example.com")
     else rev (tokens (cs ".") (cs "ad.example.com"))).
Proof.
  assert (forall s, strdup_ideal (Some s) = Some s) as H1 by reflexivity.
  assert (forall s, asprintf_ideal s = Some s) as H3 by reflexivity.
  assert (forallb (other_than ",") (cs "dc=") = true) as H4 by reflexivity.
  assert (forallb (other_than ",") (cs "ad.example.com") = true) as H5
    by reflexivity.
  assert (tokens (cs ".") (cs "ad.example.com") <> []) as H6
    by (vm_compute; discriminate).
  assert (ads_build_path strdup_ideal malloc_ideal asprintf_ideal
            (Some (cs "ad.example.com")) (cs ".") (cs "dc=") 1 =
          Some (cs "dc=com,dc=example,dc=ad")) as H7 by reflexivity.
  refine (conj H1 (conj H3 (conj H4 (conj H5 (conj H6 (conj H7 _)))))).
  exact (ads_build_path_segments strdup_ideal malloc_ideal asprintf_ideal
           H1 H3 _ _ _ 1 _ H4 H5 H6 H7).
Defined.

Lemma ads_build_path_asprintf_null_witness :
  strdup_ideal (Some (cs "example.com")) = Some (cs "example.com") /\
  (forall s : cstring, (fun _ : cstring => @None cstring) s = None) /\
  (2 <= length (tokens (cs ".") (cs "example.com")))%nat /\
  ads_build_path strdup_ideal malloc_ideal (fun _ => None)
    (Some (cs "example.com")) (cs ".") (cs "dc=") 0 = None.
Proof.
  assert (strdup_ideal (Some (cs "example.com")) = Some (cs "example.com"))
    as H1 by reflexivity.
  assert (forall s : cstring, (fun _ : cstring => @None cstring) s = None)
    as H2 by reflexivity.
  assert (2 <= length (tokens (cs ".") (cs "example.com")))%nat as H3
    by (vm_compute; lia).
  refine (conj H1 (conj H2 (conj H3 _))).
  exact (ads_build_path_asprintf_null strdup_ideal malloc_ideal
           (fun _ => None) (cs "example.com") (cs ".") (cs "dc=") 0
           H1 H2 H3).
Defined.

Lemma ads_build_domain_build_dn_normal_witness :
  (forall s, strdup_ideal (Some s) = Some s) /\
  (forall size, 0 < size -> malloc_ideal size = true) /\
  (forall s, asprintf_ideal s = Some s) /\
  (forall s, forallb is_ascii7 s = true ->
             strlower_c_locale s = Some (lowercase s)) /\
  forallb is_realm_char (cs ".AD..Example.COM.") = true /\
  tokens (cs ".") (cs ".AD..Example.COM.") <> [] /\
  path_capacity (cs ".") (cs "dc=") (cs ".AD..Example.COM.") <= INT_MAX /\
  ads_build_domain strdup_ideal strlower_c_locale
    (ads_build_dn strdup_ideal malloc_ideal asprintf_ideal
       (Some (cs ".AD..Example.COM."))) =
  Some (lowercase
          (join (cs ".") (tokens (cs ".") (cs ".AD..Example.COM.")))).
Proof.
  assert (forall s, strdup_ideal (Some s) = Some s) as H1 by reflexivity.
  assert (forall size, 0 < size -> malloc_ideal size = true) as H2
    by (intros size Hsize; apply Z.ltb_lt; exact Hsize).
  assert (forall s, asprintf_ideal s = Some s) as H3 by reflexivity.
  assert (forallb is_realm_char (cs ".AD..Example.COM.") = true) as H5
    by reflexivity.
  assert (tokens (cs ".") (cs ".AD..Example.COM.") <> []) as H6
    by (vm_compute; discriminate).
  assert (path_capacity (cs ".") (cs "dc=") (cs ".AD..Example.COM.")
          <= INT_MAX) as H7 by (vm_compute; discriminate).
  refine (conj H1 (conj H2 (conj H3 (conj strlower_c_locale_ascii
            (conj H5 (conj H6 (conj H7 _))))))).
  exact (proj1 (ads_build_domain_build_dn_normal strdup_ideal malloc_ideal
                  asprintf_ideal strlower_c_locale H1 H2 H3
                  strlower_c_locale_ascii _ H5 H6 H7)).
Defined.

Lemma ads_build_dn_build_domain_witness :
  (forall s, strdup_ideal (Some s) = Some s) /\
  (forall size, 0 < size -> malloc_ideal size = true) /\
  (forall s, asprintf_ideal s = Some s) /\
  (forall s, forallb is_ascii7 s = true ->
             strlower_c_locale s = Some (lowercase s)) /\
  [cs "ad"; cs "example"; cs "com"] <> [] /\
  forallb realm_label [cs "ad"; cs "example"; cs "com"] = true /\
  path_capacity (cs ".") (cs "dc=")
    (join (cs ".") [cs "ad"; cs "example"; cs "com"]) <= INT_MAX /\
  ads_build_dn strdup_ideal malloc_ideal asprintf_ideal
    (ads_build_domain strdup_ideal strlower_c_locale
       (Some (prefixed_path (cs "dc=") [cs "ad"; cs "example"; cs "com"]))) =
  Some (prefixed_path (cs "dc=") [cs "ad"; cs "example"; cs "com"]).
Proof.
  assert (forall s, strdup_ideal (Some s) = Some s) as H1 by reflexivity.
  assert (forall size, 0 < size -> malloc_ideal size = true) as H2
    by (intros size Hsize; apply Z.ltb_lt; exact Hsize).
  assert (forall s, asprintf_ideal s = Some s) as H3 by reflexivity.
  assert ([cs "ad"; cs "example"; cs "com"] <> []) as H5 by discriminate.
  assert (forallb realm_label [cs "ad"; cs "example"; cs "com"] = true)
    as H6 by reflexivity.
  assert (path_capacity (cs ".") (cs "dc=")
            (join (cs ".") [cs "ad"; cs "example"; cs "com"]) <= INT_MAX)
    as H7 by (vm_compute; discriminate).
  refine (conj H1 (conj H2 (conj H3 (conj strlower_c_locale_ascii
            (conj H5 (conj H6 (conj H7 _))))))).
  exact (ads_build_dn_build_domain strdup_ideal malloc_ideal asprintf_ideal
           strlower_c_locale H1 H2 H3 strlower_c_locale_ascii _ H5 H6 H7).
Defined.

Lemma ads_build_dn_injective_witness :
  (forall s, strdup_ideal (Some s) = Some s) /\
  (forall size, 0 < size -> malloc_ideal size = true) /\
  (forall s, asprintf_ideal s = Some s) /\
  realm_shape (cs "example.com") = true /\
  realm_shape (cs "example" ++ cs ".com") = true /\
  path_capacity (cs ".") (cs "dc=") (cs "example.com") <= INT_MAX /\
  path_capacity (cs ".") (cs "dc=") (cs "example" ++ cs ".com") <= INT_MAX /\
  ads_build_dn strdup_ideal malloc_ideal asprintf_ideal
    (Some (cs "example.com")) =
  ads_build_dn strdup_ideal malloc_ideal asprintf_ideal
    (Some (cs "example" ++ cs ".com")) /\
  cs "example.com" = cs "example" ++ cs ".com".
Proof.
  assert (forall s, strdup_ideal (Some s) = Some s) as H1 by reflexivity.
  assert (forall size, 0 < size -> malloc_ideal size = true) as H2
    by (intros size Hsize; apply Z.ltb_lt; exact Hsize).
  assert (forall s, asprintf_ideal s = Some s) as H3 by reflexivity.
  assert (realm_shape (cs "example.com") = true) as H4 by reflexivity.
  assert (realm_shape (cs "example" ++ cs ".com") = true) as H5
    by reflexivity.
  assert (path_capacity (cs ".") (cs "dc=") (cs "example.com") <= INT_MAX)
    as H6 by (vm_compute; discriminate).
  assert (path_capacity (cs ".") (cs "dc=") (cs "example" ++ cs ".com")
          <= INT_MAX) as H7 by (vm_compute; discriminate).
  assert (ads_build_dn strdup_ideal malloc_ideal asprintf_ideal
            (Some (cs "example.com")) =
          ads_build_dn strdup_ideal malloc_ideal asprintf_ideal
            (Some (cs "example" ++ cs ".com"))) as H8 by reflexivity.
  refine (conj H1 (conj H2 (conj H3 (conj H4 (conj H5 (conj H6
            (conj H7 (conj H8 _)))))))).
  exact (ads_build_dn_injective strdup_ideal malloc_ideal asprintf_ideal
           H1 H2 H3 _ _ H4 H5 H6 H7 H8).
Defined.

Lemma ads_build_domain_not_longer_witness :
  (forall s, strdup_ideal (Some s) = Some s) /\
  (forall s, forallb is_ascii7 s = true ->
             strlower_c_locale s = Some (lowercase s)) /\
  forallb is_ascii7 (cs "DC=Samba,DC=Org") = true /\
  exists domain,
    ads_build_domain strdup_ideal strlower_c_locale
      (Some (cs "DC=Samba,DC=Org")) = Some domain /\
    strlen domain <= strlen (cs "DC=Samba,DC=Org").
Proof.
  assert (forall s, strdup_ideal (Some s) = Some s) as H1 by reflexivity.
  assert (forallb is_ascii7 (cs "DC=Samba,DC=Org") = true) as H3
    by reflexivity.
  refine (conj H1 (conj strlower_c_locale_ascii (conj H3 _))).
  exact (proj2 (ads_build_domain_not_longer strdup_ideal strlower_c_locale
                  H1 strlower_c_locale_ascii (cs "DC=Samba,DC=Org")) H3).
Defined.

Lemma ads_build_domain_no_comma_witness :
  ads_build_domain strdup_ideal strlower_c_locale
    (Some (cs "OU=Sales, Berlin,DC=Samba,DC=Org")) =
  Some (cs "ou=sales. berlin.samba.org") /\
  forallb (other_than ",") (cs "ou=sales. berlin.samba.org") = true.
Proof.
  assert (ads_build_domain strdup_ideal strlower_c_locale
            (Some (cs "OU=Sales, Berlin,DC=Samba,DC=Org")) =
          Some (cs "ou=sales. berlin.samba.org")) as H1 by reflexivity.
  refine (conj H1 _).
  exact (ads_build_domain_no_comma strdup_ideal strlower_c_locale _ _ H1).
Defined.

Lemma ads_build_domain_case_insensitive_witness :
  (forall s, strdup_ideal (Some s) = Some s) /\
  (forall s, forallb is_ascii7 s = true ->
             strlower_c_locale s = Some (lowercase s)) /\
  forallb is_ascii7 (cs "DC=Samba,DC=Org") = true /\
  ads_build_domain strdup_ideal strlower_c_locale
    (Some (lowercase (cs "DC=Samba,DC=Org"))) =
  ads_build_domain strdup_ideal strlower_c_locale
    (Some (cs "DC=Samba,DC=Org")).
Proof.
  assert (forall s, strdup_ideal (Some s) = Some s) as H1 by reflexivity.
  assert (forallb is_ascii7 (cs "DC=Samba,DC=Org") = true) as H3
    by reflexivity.
  refine (conj H1 (conj strlower_c_locale_ascii (conj H3 _))).
  exact (ads_build_domain_case_insensitive strdup_ideal strlower_c_locale
           H1 strlower_c_locale_ascii _ H3).
Defined.

Lemma ads_flags_unsigned_witness :
  ({[1%positive := borrowed_context]} : mem) !! 1%positive
  = Some borrowed_context /\
  flags_unsigned borrowed_context /\
  0 <= 32 < 4294967296 /\
  ads_set_sasl_wrap_flags 32 64 (Some 1%positive) 32
    {[1%positive := borrowed_context]} =
  Some (true,
        <[1%positive := set_auth_flags 33 borrowed_context]>
          {[1%positive := borrowed_context]}) /\
  exists a',
    (<[1%positive := set_auth_flags 33 borrowed_context]>
       ({[1%positive := borrowed_context]} : mem)) !! 1%positive = Some a' /\
    flags_unsigned a'.
Proof.
  assert (({[1%positive := borrowed_context]} : mem) !! 1%positive
          = Some borrowed_context) as H1 by reflexivity.
  assert (flags_unsigned borrowed_context) as H2
    by (unfold flags_unsigned; simpl; lia).
  assert (0 <= 32 < 4294967296) as H3 by lia.
  assert (ads_set_sasl_wrap_flags 32 64 (Some 1%positive) 32
            {[1%positive := borrowed_context]} =
          Some (true,
                <[1%positive := set_auth_flags 33 borrowed_context]>
                  {[1%positive := borrowed_context]})) as H4
    by reflexivity.
  refine (conj H1 (conj H2 (conj H3 (conj H4 _)))).
  exact (proj2 (ads_flags_unsigned strdup_ideal 0 0 32 64)
           _ _ _ _ _ _ H1 H2 H3 H4).
Defined.

Lemma ads_build_path_starts_with_prefix_witness :
  (forall s, strdup_ideal (Some s) = Some s) /\
  (forall s, asprintf_ideal s = Some s) /\
  cs "..example..com" <> [] /\
  ads_build_path strdup_ideal malloc_ideal asprintf_ideal
    (Some (cs "..example..com")) (cs ".") (cs "dc=") 1 =
  Some (cs "dc=com,dc=example") /\
  (exists rest, cs "dc=com,dc=example" = cs "dc=" ++ rest) /\
  (cs "dc=" <> [] -> cs "dc=com,dc=example" <> []).
Proof.
  assert (forall s, strdup_ideal (Some s) = Some s) as H1 by reflexivity.
  assert (forall s, asprintf_ideal s = Some s) as H3 by reflexivity.
  assert (cs "..example..com" <> []) as H4 by discriminate.
  assert (ads_build_path strdup_ideal malloc_ideal asprintf_ideal
            (Some (cs "..example..com")) (cs ".") (cs "dc=") 1 =
          Some (cs "dc=com,dc=example")) as H5 by reflexivity.
  refine (conj H1 (conj H3 (conj H4 (conj H5 _)))).
  exact (ads_build_path_starts_with_prefix strdup_ideal malloc_ideal
           asprintf_ideal H1 H3 _ _ _ 1 _ H4 H5).
Defined.
